(** * Product administration REST API: validation rules, gate and handlers

    A shallow embedding of [src/router.ts] (the routing table with its
    express-validator rule sets), [src/middleware/index.ts]
    ([handleInputErrors]) and [src/handlers/product.ts] (the six resource
    handlers), together with the part of express-validator, validator.js and
    ECMAScript coercion that these files rely on.

    Scope of the value model: a request field is a JSON scalar (null,
    boolean, number, string) or absent; numbers are integer-valued; a string
    is its sequence of code units, each below 256.  Array and object valued
    fields and fractional JSON numbers are not modelled.  The table holds
    the field values as the handlers hand them over: the conversion of a
    value to the type of its column by the database is not modelled. *)

From Stdlib Require Import ZArith QArith String Ascii List Bool Lia.
From Stdlib Require Import DecimalString DecimalPos.
From stdpp Require Import gmap strings list sorting.

Local Open Scope string_scope.
Local Open Scope list_scope.
Local Open Scope Z_scope.

(** ** JavaScript values *)

Module Js.

Inductive JsVal : Type :=
| JUndefined
| JNull
| JBool (b : bool)
| JNum (n : Z)
| JStr (s : string).

(** The result of ECMAScript [ToNumber].  A finite result carries the
    mathematical value of the literal, before rounding to a double. *)
Inductive Number : Type :=
| NaN
| Finite (mv : Q)
| Infinite (negative : bool).

Definition chars (s : string) : list ascii := list_ascii_of_string s.

Definition code (c : ascii) : N := N_of_ascii c.

Definition is_digit (c : ascii) : bool :=
  (48 <=? code c)%N && (code c <=? 57)%N.

Definition is_hex_digit (c : ascii) : bool :=
  is_digit c
  || ((65 <=? code c)%N && (code c <=? 70)%N)
  || ((97 <=? code c)%N && (code c <=? 102)%N).

Definition is_octal_digit (c : ascii) : bool :=
  (48 <=? code c)%N && (code c <=? 55)%N.

Definition is_binary_digit (c : ascii) : bool :=
  (48 <=? code c)%N && (code c <=? 49)%N.

(** WhiteSpace and LineTerminator code units below 256: TAB, LF, VT, FF, CR,
    SP and NBSP. *)
Definition is_white_space (c : ascii) : bool :=
  ((9 <=? code c)%N && (code c <=? 13)%N)
  || (code c =? 32)%N || (code c =? 160)%N.

Definition digit_value (c : ascii) : Z :=
  let n := Z.of_N (code c) in
  if is_digit c then n - 48
  else if (97 <=? n) then n - 87
  else n - 55.

(** Value of a digit sequence in the given radix, most significant first. *)
Definition digits_value (radix : Z) (ds : list ascii) : Z :=
  fold_left (fun acc c => acc * radix + digit_value c) ds 0.

(** Longest prefix whose characters satisfy [p], and the rest. *)
Fixpoint span (p : ascii -> bool) (cs : list ascii) : list ascii * list ascii :=
  match cs with
  | c :: cs' =>
      if p c then let '(tk, rest) := span p cs' in (c :: tk, rest)
      else ([], cs)
  | [] => ([], [])
  end.

Fixpoint trim_start (cs : list ascii) : list ascii :=
  match cs with
  | c :: cs' => if is_white_space c then trim_start cs' else cs
  | [] => []
  end.

Definition trim (cs : list ascii) : list ascii :=
  rev (trim_start (rev (trim_start cs))).

Definition is_nil {A} (l : list A) : bool :=
  match l with [] => true | _ => false end.

Definition chars_eqb (a b : list ascii) : bool :=
  String.eqb (string_of_list_ascii a) (string_of_list_ascii b).

(** [0x], [0o] and [0b] literals (NonDecimalIntegerLiteral); they take no
    sign. *)
Definition non_decimal_literal (cs : list ascii) : option Z :=
  match cs with
  | "0"%char :: r :: ds =>
      let lit (radix : Z) (ok : ascii -> bool) :=
        if negb (is_nil ds) && forallb ok ds
        then Some (digits_value radix ds) else None in
      if (r =? "x")%char || (r =? "X")%char then lit 16 is_hex_digit
      else if (r =? "o")%char || (r =? "O")%char then lit 8 is_octal_digit
      else if (r =? "b")%char || (r =? "B")%char then lit 2 is_binary_digit
      else None
  | _ => None
  end.

Definition strip_sign (cs : list ascii) : bool * list ascii :=
  match cs with
  | "+"%char :: t => (false, t)
  | "-"%char :: t => (true, t)
  | _ => (false, cs)
  end.

(** ExponentPart, or nothing; [None] when what follows the mantissa is
    neither. *)
Definition exponent_part (cs : list ascii) : option Z :=
  match cs with
  | [] => Some 0
  | e :: t =>
      if (e =? "e")%char || (e =? "E")%char then
        let '(neg, ds) := strip_sign t in
        if negb (is_nil ds) && forallb is_digit ds
        then Some (if neg then - digits_value 10 ds else digits_value 10 ds)
        else None
      else None
  end.

(** StrDecimalLiteral: an optional sign, then [Infinity] or a decimal
    mantissa with an optional exponent. *)
Definition decimal_literal (cs : list ascii) : Number :=
  let '(neg, r0) := strip_sign cs in
  if chars_eqb r0 (chars "Infinity") then Infinite neg
  else
    let '(ip, r1) := span is_digit r0 in
    let '(fr, r2) :=
      match r1 with
      | "."%char :: t => span is_digit t
      | _ => ([], r1)
      end in
    if is_nil ip && is_nil fr then NaN
    else
      match exponent_part r2 with
      | Some e =>
          let m := digits_value 10 (ip ++ fr) in
          let q := (inject_Z m * Qpower (inject_Z 10) (e - Z.of_nat (length fr)))%Q in
          Finite (if neg then Qopp q else q)
      | None => NaN
      end.

(** ECMAScript StringToNumber. *)
Definition StringToNumber (s : string) : Number :=
  let cs := trim (chars s) in
  if is_nil cs then Finite (inject_Z 0)
  else
    match non_decimal_literal cs with
    | Some n => Finite (inject_Z n)
    | None => decimal_literal cs
    end.

(** ECMAScript ToNumber on the modelled values. *)
Definition ToNumber (v : JsVal) : Number :=
  match v with
  | JUndefined => NaN
  | JNull => Finite (inject_Z 0)
  | JBool b => Finite (inject_Z (if b then 1 else 0))
  | JNum n => Finite (inject_Z n)
  | JStr s => StringToNumber s
  end.

(** Half of the least positive double, 2^-1075: a mathematical value rounds
    to a positive double exactly when it is above it. *)
Definition underflow_bound : Q := Qmake 1 (2 ^ 1075)%positive.

Definition Qltb (x y : Q) : bool := negb (Qle_bool y x).

(** [x > 0] on numbers: false for NaN. *)
Definition number_gt_zero (x : Number) : bool :=
  match x with
  | NaN => false
  | Finite mv => Qltb underflow_bound mv
  | Infinite neg => negb neg
  end.

(** The JavaScript expression [value > 0]. *)
Definition gt_zero (value : JsVal) : bool := number_gt_zero (ToNumber value).

(** ECMAScript ToBoolean, which [!value] negates. *)
Definition ToBoolean (v : JsVal) : bool :=
  match v with
  | JUndefined | JNull => false
  | JBool b => b
  | JNum n => negb (n =? 0)
  | JStr s => negb (Nat.eqb (String.length s) 0)
  end.

(** The decimal numeral of an integer, with a minus sign when negative. *)
Definition plain_decimal (n : Z) : string :=
  NilZero.string_of_int (Z.to_int n).

Fixpoint drop_zeros (ds : list ascii) : list ascii :=
  match ds with
  | c :: ds' => if (c =? "0")%char then drop_zeros ds' else ds
  | [] => []
  end.

(** Exponent notation: the first digit, the further digits up to the last
    one that is not zero after a dot, then [e+] and the exponent.  The
    digits are those of [n]; JavaScript prints the shortest digits that read
    back as the same double, which may differ from them in the low-order
    digits and never in the shape of the string. *)
Definition exponent_notation (n : Z) : string :=
  let sign := if n <? 0 then ["-"%char] else [] in
  match chars (plain_decimal (Z.abs n)) with
  | d :: ds =>
      let fraction := rev (drop_zeros (rev ds)) in
      string_of_list_ascii
        (sign ++ d :: (if is_nil fraction then [] else "."%char :: fraction)
         ++ "e"%char :: "+"%char :: chars (plain_decimal (Z.of_nat (length ds))))
  | [] => ""
  end.

(** ECMAScript [String(n)] for an integer-valued number: a plain decimal
    numeral below 10^21 in magnitude, exponent notation from there on. *)
Definition number_to_string (n : Z) : string :=
  if Z.abs n <? 10 ^ 21 then plain_decimal n else exponent_notation n.

End Js.

Import Js.

(** ** validator.js: the string predicates the rule sets use *)

Module Validator.

(** [isEmpty(str)] with the default [ignore_whitespace: false]:
    [str.length === 0]. *)
Definition isEmpty (str : string) : bool :=
  Nat.eqb (String.length str) 0.

(** [isNumeric(str)]: the regular expression
    [^[+-]?([0-9]*[.])?[0-9]+$]. *)
Definition isNumeric (str : string) : bool :=
  let '(_, r0) := strip_sign (chars str) in
  let '(_, r1) := span is_digit r0 in
  match r1 with
  | [] => negb (is_nil r0)
  | "."%char :: fr => negb (is_nil fr) && forallb is_digit fr
  | _ => false
  end.

(** [isInt(str)] with no options: the regular expression [^[-+]?[0-9]+$]. *)
Definition isInt (str : string) : bool :=
  let '(_, r0) := strip_sign (chars str) in
  negb (is_nil r0) && forallb is_digit r0.

(** [isBoolean(str)] with the default [loose: false]. *)
Definition isBoolean (str : string) : bool :=
  existsb (String.eqb str) ["true"; "false"; "1"; "0"].

End Validator.

(** ** express-validator: chains, contexts and validation results *)

Inductive Location : Type := LBody | LParams.

(** An entry of [validationResult(req).array()] (a field error). *)
Record FieldValidationError : Type := mkError {
  location : Location;
  path : string;
  value : JsVal;
  msg : string
}.

Inductive Validation : Type :=
| StandardValidation (validator : string -> bool)
| CustomValidation (validator : JsVal -> bool).

Record ContextItem : Type := mkItem {
  validation : Validation;
  negated : bool;
  message : string
}.

Record ValidationChain : Type := mkChain {
  chain_location : Location;
  field : string;
  stack : list ContextItem
}.

(** The request as the middlewares see it: route parameters, the parsed JSON
    body, and the validation contexts that the chains which already ran have
    attached to it. *)
Record Request : Type := mkRequest {
  params : gmap string string;
  body_of : gmap string JsVal;
  contexts : list (list FieldValidationError)
}.

Definition body (f : string) : ValidationChain := mkChain LBody f [].
Definition param (f : string) : ValidationChain := mkChain LParams f [].

Definition addItem (v : Validation) (neg : bool) (c : ValidationChain)
  : ValidationChain :=
  mkChain (chain_location c) (field c) (stack c ++ [mkItem v neg "Invalid value"]).

Definition isNumeric : ValidationChain -> ValidationChain :=
  addItem (StandardValidation Validator.isNumeric) false.
Definition isInt : ValidationChain -> ValidationChain :=
  addItem (StandardValidation Validator.isInt) false.
Definition isBoolean : ValidationChain -> ValidationChain :=
  addItem (StandardValidation Validator.isBoolean) false.
(** [notEmpty()] is [not().isEmpty()]. *)
Definition notEmpty : ValidationChain -> ValidationChain :=
  addItem (StandardValidation Validator.isEmpty) true.
Definition custom (f : JsVal -> bool) : ValidationChain -> ValidationChain :=
  addItem (CustomValidation f) false.

Fixpoint set_last_message (m : string) (items : list ContextItem)
  : list ContextItem :=
  match items with
  | [] => []
  | [it] => [mkItem (validation it) (negated it) m]
  | it :: rest => it :: set_last_message m rest
  end.

(** [withMessage(m)] sets the message of the validator added last. *)
Definition withMessage (m : string) (c : ValidationChain) : ValidationChain :=
  mkChain (chain_location c) (field c) (set_last_message m (stack c)).

Notation "c |> f" := (f c) (at level 45, left associativity, only parsing).

(** express-validator's [toString], which feeds the standard validators. *)
Definition toString (v : JsVal) : string :=
  match v with
  | JUndefined | JNull => ""
  | JBool b => if b then "true" else "false"
  | JNum n => number_to_string n
  | JStr s => s
  end.

(** The value a chain selects from the request. *)
Definition select_field (c : ValidationChain) (req : Request) : JsVal :=
  match chain_location c with
  | LBody => default JUndefined (body_of req !! field c)
  | LParams => from_option JStr JUndefined (params req !! field c)
  end.

(** Whether a context item rejects the value. *)
Definition item_fails (it : ContextItem) (v : JsVal) : bool :=
  let result :=
    match validation it with
    | StandardValidation validator => validator (toString v)
    | CustomValidation validator => validator v
    end in
  if negated it then result else negb result.

(** Running the stack: every item runs (there is no [bail]), and each
    failure adds an error to the context. *)
Fixpoint run_stack (loc : Location) (f : string) (v : JsVal)
    (items : list ContextItem) (errors : list FieldValidationError)
  : list FieldValidationError :=
  match items with
  | [] => errors
  | it :: rest =>
      run_stack loc f v rest
        (if item_fails it v then errors ++ [mkError loc f v (message it)]
         else errors)
  end.

Definition run_chain (c : ValidationChain) (req : Request)
  : list FieldValidationError :=
  run_stack (chain_location c) (field c) (select_field c req) (stack c) [].

(** [validationResult(req).array()]: the errors of all contexts, in the order
    the chains ran. *)
Definition validationResult (req : Request) : list FieldValidationError :=
  concat (contexts req).

(** ** The storage collaborator *)

Module Product.

(** Modelled from the spec: the Product model ([models/Product.model]) is not
    part of the sources.  A row has the four columns of the spec's data
    model.  Its name, price and availability are the field values as the
    handlers hand them over: a value that is not yet of the type of its
    column (a price given as a numeric string, an availability given as
    ["0"]) is kept as it is, where the database would convert it. *)
Record t : Type := mk {
  id : Z;
  name : JsVal;
  price : JsVal;
  availability : JsVal
}.

(** The calls a handler makes on the storage layer. *)
Inductive Call : Type :=
| FindAll
| FindByPk (key : option string)
| Create (values : gmap string JsVal)
| Update (key : Z) (values : gmap string JsVal)
| Save (key : Z)
| Destroy (key : Z).

Definition mutating (c : Call) : bool :=
  match c with
  | FindAll | FindByPk _ => false
  | Create _ | Update _ _ | Save _ | Destroy _ => true
  end.

(** Modelled from the spec: the table behind the model, which is not part of
    the sources: the rows by key, the next key the storage layer generates,
    and the calls made so far. *)
Record Db : Type := mkDb {
  rows : gmap Z t;
  next_id : Z;
  calls : list Call
}.

Definition empty : Db := mkDb ∅ 1 [].

(** Modelled from the spec: [availability: boolean, defaults to true on
    creation]; the model that declares the default is not part of the
    sources. *)
Definition default_availability : JsVal := JBool true.

(** Modelled from the spec: [id: integer]; the model that declares the
    column is not part of the sources.  The key column holds 32-bit
    integers. *)
Definition id_in_range (k : Z) : bool :=
  (-2147483648 <=? k) && (k <=? 2147483647).

(** The directions of an [order] clause. *)
Inductive Direction : Type := ASC | DESC.

End Product.

(** Handlers run against the table: a state monad over [Product.Db]. *)
Definition M (A : Type) : Type := Product.Db -> A * Product.Db.

Definition ret {A} (a : A) : M A := fun db => (a, db).

Definition bind {A B} (m : M A) (k : A -> M B) : M B :=
  fun db => let '(a, db') := m db in k a db'.

Notation "'let*' x ':=' m 'in' k" := (bind m (fun x => k))
  (at level 10, x name, m at level 100, k at level 200).
Notation "'run' m 'in' k" := (bind m (fun _ => k))
  (at level 10, m at level 100, k at level 200).

Module Storage.
Import Product.

Definition record (c : Call) : M unit :=
  fun db => (tt, mkDb (rows db) (next_id db) (calls db ++ [c])).

(** The integer a key string denotes; a string that is no integer numeral
    matches no row. *)
Definition key_of_string (s : string) : option Z :=
  if Validator.isInt s then
    let '(neg, ds) := strip_sign (chars s) in
    Some (if neg then - digits_value 10 ds else digits_value 10 ds)
  else None.

Definition numeric_value (v : JsVal) : Q :=
  match ToNumber v with
  | Finite mv => mv
  | _ => inject_Z 0
  end.

(** How two rows compare on a column: the name as text, the other columns
    as numbers. *)
Definition compare_column (f : string) (a b : t) : comparison :=
  if String.eqb f "name" then String.compare (toString (name a)) (toString (name b))
  else
    let column (p : t) : JsVal :=
      if String.eqb f "id" then JNum (id p)
      else if String.eqb f "price" then price p
      else if String.eqb f "availability" then availability p
      else JUndefined in
    Qcompare (numeric_value (column a)) (numeric_value (column b)).

(** How two rows compare under an [order] clause: by its first column, in
    its direction, then by the further ones. *)
Fixpoint compare_rows (order : list (string * Direction)) (a b : t) : comparison :=
  match order with
  | [] => Eq
  | (f, direction) :: rest =>
      match compare_column f a b with
      | Eq => compare_rows rest a b
      | c => match direction with ASC => c | DESC => CompOpp c end
      end
  end.

(** [a] comes no later than [b] under the [order] clause. *)
Definition ordered (order : list (string * Direction)) (a b : t) : Prop :=
  compare_rows order a b <> Gt.

#[global] Instance ordered_dec order : RelDecision (ordered order) :=
  fun a b => not_dec (decide (compare_rows order a b = Gt)).

(** Modelled from the spec: [listAll(orderBy) -> Product[]], here
    [Product.findAll({order})]. *)
Definition findAll (order : list (string * Direction)) : M (list t) :=
  run record FindAll in
  fun db => (merge_sort (ordered order) (snd <$> map_to_list (rows db)), db).

(** Modelled from the spec: [findByKey(id) -> Product | absent], here
    [Product.findByPk(id)]. *)
Definition findByPk (key : option string) : M (option t) :=
  run record (FindByPk key) in
  fun db => (k ← key ≫= key_of_string; rows db !! k, db).

(** Whether the storage layer generates the key: the values name no id. *)
Definition generated_key (values : gmap string JsVal) : bool :=
  match values !! "id" with
  | None | Some JUndefined | Some JNull => true
  | Some _ => false
  end.

(** The key an insert of [values] asks for: the next generated key, or the
    integer the values name as id; none when the id is no integer. *)
Definition requested_key (values : gmap string JsVal) (db : Db) : option Z :=
  match values !! "id" with
  | None | Some JUndefined | Some JNull => Some (next_id db)
  | Some (JNum k) => Some k
  | Some (JStr s) => key_of_string s
  | Some (JBool _) => None
  end.

(** A key can take a new row when it fits the column and no row has it. *)
Definition key_usable (db : Db) (k : Z) : bool :=
  id_in_range k && match rows db !! k with None => true | Some _ => false end.

(** Modelled from the spec: [insert(fields) -> Product], here
    [Product.create(values)], which gets the whole request body.  The row
    goes under the id the values name, or under a generated one, and its
    availability defaults to true.  The insert fails, and the call throws,
    when the key is in use, does not fit the column or is no integer; a
    generated key is used up either way.  [None] is a call that threw. *)
Definition create (values : gmap string JsVal) : M (option t) :=
  run record (Create values) in
  fun db =>
    let next := if generated_key values then next_id db + 1 else next_id db in
    match requested_key values db with
    | Some k =>
        if key_usable db k then
          let product :=
            mk k
               (default JUndefined (values !! "name"))
               (default JUndefined (values !! "price"))
               (default default_availability (values !! "availability")) in
          (Some product, mkDb (<[k := product]> (rows db)) next (calls db))
        else (None, mkDb (rows db) next (calls db))
    | None => (None, mkDb (rows db) next (calls db))
    end.

(** Writing a row back touches the table only where a row with its key
    exists. *)
Definition write (product : t) : M unit :=
  fun db =>
    (tt, match rows db !! id product with
         | Some _ => mkDb (<[id product := product]> (rows db)) (next_id db) (calls db)
         | None => db
         end).

(** Modelled from the spec: [update(Product, fields) -> Product], here
    [product.update(values)]: the fields present in [values] replace the
    row's; the key of a row does not change. *)
Definition update (product : t) (values : gmap string JsVal) : M t :=
  run record (Update (id product) values) in
  let product' :=
    mk (id product)
       (default (name product) (values !! "name"))
       (default (price product) (values !! "price"))
       (default (availability product) (values !! "availability")) in
  run write product' in
  ret product'.

(** [product.save()]. *)
Definition save (product : t) : M unit :=
  run record (Save (id product)) in
  write product.

(** Modelled from the spec: [delete(Product) -> void], a hard delete, here
    [product.destroy()]. *)
Definition destroy (product : t) : M unit :=
  run record (Destroy (id product)) in
  fun db => (tt, mkDb (delete (id product) (rows db)) (next_id db) (calls db)).

End Storage.

(** ** HTTP responses *)

Inductive Json : Type :=
| Data (product : Product.t)
| DataList (products : list Product.t)
| DataString (text : string)
| Error (error : string)
| Errores (errores : list FieldValidationError).

Record Response : Type := mkResponse {
  status : Z;
  json : Json
}.

(** [res.json(b)] answers 200; [res.status(n).json(b)] answers [n]. *)
Definition res_json (b : Json) : Response := mkResponse 200 b.
Definition res_status_json (n : Z) (b : Json) : Response := mkResponse n b.

(** ** [handlers/product.ts]

    Of the storage calls of this model only [Product.create] throws.  The
    [catch] branch of a handler logs the error and sends nothing: for
    [createProduct] that is the answer [None]; the [catch] branches of the
    other handlers have no counterpart here. *)

Definition getProducts (req : Request) : M Response :=
  let* products := Storage.findAll [("price", Product.DESC)] in
  ret (res_json (DataList products)).

Definition getProductById (req : Request) : M Response :=
  let id := params req !! "id" in
  let* product := Storage.findByPk id in
  match product with
  | None => ret (res_status_json 404 (Error "Producto no encontrado"))
  | Some product => ret (res_json (Data product))
  end.

Definition createProduct (req : Request) : M (option Response) :=
  let* product := Storage.create (body_of req) in
  match product with
  | Some product => ret (Some (res_status_json 201 (Data product)))
  | None => ret None
  end.

Definition updateProduct (req : Request) : M Response :=
  let id := params req !! "id" in
  let* product := Storage.findByPk id in
  match product with
  | None => ret (res_status_json 404 (Error "Producto no encontrado"))
  | Some product =>
      let* product := Storage.update product (body_of req) in
      run Storage.save product in
      ret (res_json (Data product))
  end.

Definition updateAvailability (req : Request) : M Response :=
  let id := params req !! "id" in
  let* product := Storage.findByPk id in
  match product with
  | None => ret (res_status_json 404 (Error "Producto no encontrado"))
  | Some product =>
      let product :=
        Product.mk (Product.id product) (Product.name product)
          (Product.price product)
          (JBool (negb (ToBoolean (Product.availability product)))) in
      run Storage.save product in
      ret (res_json (Data product))
  end.

Definition deleteProduct (req : Request) : M Response :=
  let id := params req !! "id" in
  let* product := Storage.findByPk id in
  match product with
  | None => ret (res_status_json 404 (Error "Producto no encontrado"))
  | Some product =>
      run Storage.destroy product in
      ret (res_json (DataString "Producto eliminado"))
  end.

(** ** Middlewares *)

(** A middleware either answers or calls [next] with the request; [None] is
    a request nobody answered. *)
Definition Middleware : Type :=
  Request -> (Request -> M (option Response)) -> M (option Response).

(** A validation chain used as a middleware: it runs, attaches its context
    to the request and always calls [next]. *)
Definition validate (c : ValidationChain) : Middleware :=
  fun req next =>
    next (mkRequest (params req) (body_of req) (contexts req ++ [run_chain c req])).

(** [middleware/index.ts] *)
Definition handleInputErrors : Middleware :=
  fun req next =>
    let errores := validationResult req in
    if negb (is_nil errores) then
      ret (Some (res_status_json 400 (Errores errores)))
    else next req.

(** A handler ends the chain: it never calls [next]. *)
Definition handler (h : Request -> M Response) : Middleware :=
  fun req _ => let* res := h req in ret (Some res).

(** A handler that may leave the request without an answer. *)
Definition handler_or_silence (h : Request -> M (option Response)) : Middleware :=
  fun req _ => h req.

Fixpoint run_middlewares (ms : list Middleware) (req : Request)
  : M (option Response) :=
  match ms with
  | [] => ret None
  | m :: rest => m req (run_middlewares rest)
  end.

(** ** [router.ts]: the rule sets and the routing table *)

Module Rules.

Definition get_id : ValidationChain :=
  param "id" |> isInt |> withMessage "ID no valido".

Definition post_name : ValidationChain :=
  body "name" |> notEmpty |> withMessage "El nombre del producto no puede ir vacio".

Definition post_price : ValidationChain :=
  body "price"
    |> isNumeric |> withMessage "Valor no valido"
    |> notEmpty |> withMessage "El precio del producto no puede ir vacio"
    |> custom (fun value => gt_zero value) |> withMessage "Precio no valido".

Definition put_id : ValidationChain :=
  param "id" |> isInt |> withMessage "ID no valido".

Definition put_name : ValidationChain :=
  body "name" |> notEmpty |> withMessage "El nombre del producto no puede ir vacio".

Definition put_price : ValidationChain :=
  body "price"
    |> isNumeric |> withMessage "Valor no valido"
    |> notEmpty |> withMessage "El precio del producto no puede ir vacio"
    |> custom (fun value => gt_zero value) |> withMessage "Precio no valido".

Definition put_availability : ValidationChain :=
  body "availability"
    |> isBoolean |> withMessage "Debes de actualizar el estado del producto".

Definition patch_id : ValidationChain :=
  param "id" |> isInt |> withMessage "ID no valido".

Definition delete_id : ValidationChain :=
  param "id" |> isInt |> withMessage "ID no valido".

(** The rule set of each route, in declaration order. *)
Definition get_by_id : list ValidationChain := [get_id].
Definition post : list ValidationChain := [post_name; post_price].
Definition put : list ValidationChain :=
  [put_id; put_name; put_price; put_availability].
Definition patch : list ValidationChain := [patch_id].
Definition delete : list ValidationChain := [delete_id].

End Rules.

Inductive Method : Type := GET | POST | PUT | PATCH | DELETE.

Definition Method_eqb (a b : Method) : bool :=
  match a, b with
  | GET, GET | POST, POST | PUT, PUT | PATCH, PATCH | DELETE, DELETE => true
  | _, _ => false
  end.

(** The two path patterns of the table: ['/'] and ['/:id']. *)
Inductive Pattern : Type := Root | Param (p : string).

(** A route: method, path pattern, and the rule set, gate and handler
    bound to it. *)
Record Route : Type := mkRoute {
  route_method : Method;
  route_path : Pattern;
  route_rules : list ValidationChain;
  route_handler : Middleware
}.

(** The ordered chain [rule set] -> [gate] -> [handler]. *)
Definition guarded (rules : list ValidationChain) (h : Request -> M Response)
  : list Middleware :=
  (validate <$> rules) ++ [handleInputErrors; handler h].

(** The chain of a route: its rule set, the gate, its handler.  The route
    without rules ([GET /]) has no gate either. *)
Definition route_stack (r : Route) : list Middleware :=
  match route_rules r with
  | [] => [route_handler r]
  | rules => (validate <$> rules) ++ [handleInputErrors; route_handler r]
  end.

Definition router : list Route :=
  [ mkRoute GET Root [] (handler getProducts);
    mkRoute GET (Param "id") Rules.get_by_id (handler getProductById);
    mkRoute POST Root Rules.post (handler_or_silence createProduct);
    mkRoute PUT (Param "id") Rules.put (handler updateProduct);
    mkRoute PATCH (Param "id") Rules.patch (handler updateAvailability);
    mkRoute DELETE (Param "id") Rules.delete (handler deleteProduct) ].

(** An HTTP request below the products prefix: the method, the path
    segments after the prefix, and the parsed JSON body. *)
Record HttpRequest : Type := mkHttp {
  http_method : Method;
  http_path : list string;
  http_body : gmap string JsVal
}.

(** Matching a path against a pattern binds the route parameters. *)
Definition match_path (pat : Pattern) (segments : list string)
  : option (gmap string string) :=
  match pat, segments with
  | Root, [] => Some ∅
  | Param p, [seg] =>
      if Nat.eqb (String.length seg) 0 then None else Some {[ p := seg ]}
  | _, _ => None
  end.

(** The first route of the table that matches handles the request. *)
Fixpoint dispatch (table : list Route) (h : HttpRequest) : M (option Response) :=
  match table with
  | [] => ret None
  | r :: rest =>
      if Method_eqb (route_method r) (http_method h) then
        match match_path (route_path r) (http_path h) with
        | Some ps => run_middlewares (route_stack r) (mkRequest ps (http_body h) [])
        | None => dispatch rest h
        end
      else dispatch rest h
  end.

(** The API: one request against the table. *)
Definition api (h : HttpRequest) (db : Product.Db) : option Response * Product.Db :=
  dispatch router h db.

(** The stores the API can reach from the empty table. *)
Inductive reachable : Product.Db -> Prop :=
| reachable_empty : reachable Product.empty
| reachable_step h db : reachable db -> reachable (snd (api h db)).

(** ** Violations of a rule set *)

(** A constraint is one validator of one chain. *)
Definition constraints (rules : list ValidationChain)
  : list (ValidationChain * ContextItem) :=
  c ← rules; pair c <$> stack c.

Definition violated (req : Request) (k : ValidationChain * ContextItem) : bool :=
  item_fails (snd k) (select_field (fst k) req).

Definition entry (req : Request) (k : ValidationChain * ContextItem)
  : FieldValidationError :=
  mkError (chain_location (fst k)) (field (fst k)) (select_field (fst k) req)
    (message (snd k)).

(** The entries the rule set reports for a request: one per violated
    constraint, in declaration order. *)
Definition violations (rules : list ValidationChain) (req : Request)
  : list FieldValidationError :=
  entry req <$> List.filter (violated req) (constraints rules).

(** ** Properties of products *)

(** The numeric reading of a stored price: a number, or a string that
    denotes a finite number. *)
Definition price_reading (v : JsVal) : option Q :=
  match v with
  | JNum n => Some (inject_Z n)
  | JStr s => match StringToNumber s with Finite mv => Some mv | _ => None end
  | _ => None
  end.

Definition price_positive (p : Product.t) : Prop :=
  exists q, price_reading (Product.price p) = Some q /\ (0 < q)%Q.

(** The name, as text, is empty or consists of white space only. *)
Definition name_blank (p : Product.t) : bool :=
  forallb is_white_space (chars (toString (Product.name p))).

Definition name_nonempty (p : Product.t) : Prop :=
  toString (Product.name p) <> "".

(** Every row is stored under its own id. *)
Definition well_keyed (db : Product.Db) : Prop :=
  forall k p, Product.rows db !! k = Some p -> Product.id p = k.

(** ** Notions used in the statements *)

(** The entry [e] when [b] holds, nothing otherwise. *)
Definition when (b : bool) (e : FieldValidationError) : list FieldValidationError :=
  if b then [e] else [].

(** What each kind of chain of the table reports on the value [v] of its
    field. *)
Definition id_errors (v : JsVal) : list FieldValidationError :=
  when (negb (Validator.isInt (toString v))) (mkError LParams "id" v "ID no valido").

Definition name_errors (v : JsVal) : list FieldValidationError :=
  when (Validator.isEmpty (toString v))
    (mkError LBody "name" v "El nombre del producto no puede ir vacio").

Definition price_errors (v : JsVal) : list FieldValidationError :=
  when (negb (Validator.isNumeric (toString v)))
    (mkError LBody "price" v "Valor no valido")
  ++ when (Validator.isEmpty (toString v))
    (mkError LBody "price" v "El precio del producto no puede ir vacio")
  ++ when (negb (gt_zero v)) (mkError LBody "price" v "Precio no valido").

Definition availability_errors (v : JsVal) : list FieldValidationError :=
  when (negb (Validator.isBoolean (toString v)))
    (mkError LBody "availability" v "Debes de actualizar el estado del producto").

(** [req.body[f]] and [req.params.id] as the chains see them. *)
Definition body_field (f : string) (req : Request) : JsVal :=
  default JUndefined (body_of req !! f).

Definition id_param (req : Request) : JsVal :=
  from_option JStr JUndefined (params req !! "id").

(** The entry is about the field [f]. *)
Definition on_path (f : string) (e : FieldValidationError) : bool :=
  String.eqb (path e) f.

(** The table after the call [c] was recorded. *)
Definition logged (c : Product.Call) (db : Product.Db) : Product.Db :=
  Product.mkDb (Product.rows db) (Product.next_id db) (Product.calls db ++ [c]).

(** The row a key string designates, if any. *)
Definition lookup_row (key : option string) (db : Product.Db) : option Product.t :=
  k ← key ≫= Storage.key_of_string; Product.rows db !! k.

(** The answer of every handler that finds no row. *)
Definition not_found : Response :=
  mkResponse 404 (Error "Producto no encontrado").

(** The row after [product.update(values)]. *)
Definition replaced (p : Product.t) (values : gmap string JsVal) : Product.t :=
  Product.mk (Product.id p)
    (default (Product.name p) (values !! "name"))
    (default (Product.price p) (values !! "price"))
    (default (Product.availability p) (values !! "availability")).

(** The row with its availability negated. *)
Definition toggled (p : Product.t) : Product.t :=
  Product.mk (Product.id p) (Product.name p) (Product.price p)
    (JBool (negb (ToBoolean (Product.availability p)))).

(** The row [Product.create(values)] inserts under the key [key]. *)
Definition created (key : Z) (values : gmap string JsVal) : Product.t :=
  Product.mk key
    (default JUndefined (values !! "name"))
    (default JUndefined (values !! "price"))
    (default (JBool true) (values !! "availability")).

(** The key under which [Product.create(values)] inserts, when it does. *)
Definition create_key (values : gmap string JsVal) (db : Product.Db) : option Z :=
  match Storage.requested_key values db with
  | Some k => if Storage.key_usable db k then Some k else None
  | None => None
  end.

(** The next key to generate once [Product.create(values)] has run. *)
Definition next_after_create (values : gmap string JsVal) (db : Product.Db) : Z :=
  if Storage.generated_key values
  then Product.next_id db + 1 else Product.next_id db.

(** What one request may do to the rows. *)
Inductive row_step (db : Product.Db) : gmap Z Product.t -> Prop :=
| rows_same : row_step db (Product.rows db)
| rows_created k b :
    violations Rules.post (mkRequest ∅ b []) = [] ->
    row_step db (<[k := created k b]> (Product.rows db))
| rows_replaced p ps b :
    Product.rows db !! Product.id p = Some p ->
    violations Rules.put (mkRequest ps b []) = [] ->
    row_step db (<[Product.id p := replaced p b]> (Product.rows db))
| rows_toggled p :
    Product.rows db !! Product.id p = Some p ->
    row_step db (<[Product.id p := toggled p]> (Product.rows db))
| rows_deleted k : row_step db (delete k (Product.rows db)).

(** A create body the rules accept. *)
Definition mouse : gmap string JsVal :=
  {[ "name" := JStr "Mouse"; "price" := JNum 50 ]}.

(** The characters of the strings [isNumeric] accepts. *)
Definition numeric_char (c : ascii) : bool :=
  is_digit c || (c =? "+")%char || (c =? "-")%char || (c =? ".")%char.

(** The invariant of a stored product. *)
Definition good (p : Product.t) : Prop := price_positive p /\ name_nonempty p.

(** A create body whose name is three spaces. *)
Definition blank : gmap string JsVal :=
  {[ "name" := JStr "   "; "price" := JNum 5 ]}.

(** ** What a request can come to *)

(** The answers and stores one request can produce from the store [db]. *)
Inductive outcome (db : Product.Db) : option Response -> Product.Db -> Prop :=
| out_unrouted : outcome db None db
| out_rejected es :
    es <> [] -> outcome db (Some (mkResponse 400 (Errores es))) db
| out_missing key :
    outcome db (Some not_found) (logged (Product.FindByPk key) db)
| out_list l :
    outcome db (Some (mkResponse 200 (DataList l))) (logged Product.FindAll db)
| out_found key p :
    Product.rows db !! Product.id p = Some p ->
    outcome db (Some (mkResponse 200 (Data p))) (logged (Product.FindByPk key) db)
| out_created k b next :
    outcome db
      (Some (mkResponse 201 (Data (created k b))))
      (Product.mkDb (<[k := created k b]> (Product.rows db)) next
         (Product.calls db ++ [Product.Create b]))
| out_silent b next :
    outcome db None
      (Product.mkDb (Product.rows db) next (Product.calls db ++ [Product.Create b]))
| out_replaced key p b :
    Product.rows db !! Product.id p = Some p ->
    outcome db
      (Some (mkResponse 200 (Data (replaced p b))))
      (Product.mkDb (<[Product.id p := replaced p b]> (Product.rows db))
         (Product.next_id db)
         (Product.calls db ++
            [Product.FindByPk key; Product.Update (Product.id p) b;
             Product.Save (Product.id p)]))
| out_toggled key p :
    Product.rows db !! Product.id p = Some p ->
    outcome db
      (Some (mkResponse 200 (Data (toggled p))))
      (Product.mkDb (<[Product.id p := toggled p]> (Product.rows db))
         (Product.next_id db)
         (Product.calls db ++ [Product.FindByPk key; Product.Save (Product.id p)]))
| out_deleted key p :
    Product.rows db !! Product.id p = Some p ->
    outcome db
      (Some (mkResponse 200 (DataString "Producto eliminado")))
      (Product.mkDb (delete (Product.id p) (Product.rows db))
         (Product.next_id db)
         (Product.calls db ++ [Product.FindByPk key; Product.Destroy (Product.id p)])).

(** ** [server.ts]: the CORS policy in front of the router *)

Module Server.






End Server.

(** ** Request bodies of the test suite *)

Module Suite.

Definition monitor (price : Z) (availability : bool) : gmap string JsVal :=
  {[ "name" := JStr "Monitor Curvo --actualizado";
     "price" := JNum price;
     "availability" := JBool availability ]}.

Definition playstation (price : JsVal) : gmap string JsVal :=
  {[ "name" := JStr "Play station 5 ---prueba"; "price" := price ]}.

End Suite.

(** * Proofs *)

(** ** The state monad *)

Lemma bind_run {A B} (m : M A) (k : A -> M B) db :
  bind m k db = k (fst (m db)) (snd (m db)).
Proof. unfold bind. destruct (m db); reflexivity. Qed.

(** ** Running chains and rule sets *)

Lemma run_stack_spec loc f v items errors :
  run_stack loc f v items errors =
  errors ++ ((fun it => mkError loc f v (message it)) <$>
             List.filter (fun it => item_fails it v) items).
Proof.
  revert errors. induction items as [|it rest IH]; intros errors; simpl.
  - by rewrite app_nil_r.
  - rewrite IH. destruct (item_fails it v); simpl.
    + by rewrite <- app_assoc.
    + done.
Qed.

Lemma run_chain_spec c req :
  run_chain c req = violations [c] req.
Proof.
  unfold run_chain, violations, constraints. rewrite run_stack_spec. simpl.
  rewrite app_nil_r. induction (stack c) as [|it rest IH]; csimpl; [done|].
  change (violated req (c, it)) with (item_fails it (select_field c req)).
  destruct (item_fails it _); csimpl; by rewrite IH.
Qed.

Lemma violations_cons c rules req :
  violations (c :: rules) req = run_chain c req ++ violations rules req.
Proof.
  rewrite run_chain_spec. unfold violations, constraints. simpl.
  rewrite app_nil_r, List.filter_app, fmap_app. done.
Qed.

(** After the rule set, the request carries one context per chain. *)
Lemma run_validate rules rest ps b ctx :
  run_middlewares ((validate <$> rules) ++ rest) (mkRequest ps b ctx) =
  run_middlewares rest
    (mkRequest ps b (ctx ++ ((fun c => run_chain c (mkRequest ps b [])) <$> rules))).
Proof.
  revert ctx. induction rules as [|c rules IH]; intros ctx; simpl.
  - by rewrite app_nil_r.
  - unfold validate at 1. simpl. rewrite IH. by rewrite <- app_assoc.
Qed.

Lemma concat_run_chains rules req :
  concat ((fun c => run_chain c req) <$> rules) = violations rules req.
Proof.
  induction rules as [|c rules IH]; csimpl; [done|].
  by rewrite violations_cons, IH.
Qed.

(** The chain of a guarded route, as one equation: the gate answers 400 with
    the violations, or the handler runs. *)
Lemma run_guarded rules h ps b db :
  run_middlewares (guarded rules h) (mkRequest ps b []) db =
  let req := mkRequest ps b [] in
  if is_nil (violations rules req)
  then
    let req' := mkRequest ps b ((fun c => run_chain c req) <$> rules) in
    (Some (fst (h req' db)), snd (h req' db))
  else (Some (res_status_json 400 (Errores (violations rules req))), db).
Proof.
  unfold guarded. rewrite run_validate. simpl.
  unfold handleInputErrors, validationResult. simpl.
  rewrite concat_run_chains.
  destruct (violations rules _) as [|e es]; simpl; [|done].
  unfold handler. rewrite bind_run. done.
Qed.

(** ** The rule sets of the table, chain by chain *)

#[local] Arguments Validator.isNumeric : simpl never.
#[local] Arguments Validator.isEmpty : simpl never.
#[local] Arguments Validator.isInt : simpl never.
#[local] Arguments Validator.isBoolean : simpl never.
#[local] Arguments gt_zero : simpl never.
#[local] Arguments toString : simpl never.

Ltac run_chain_eval :=
  unfold run_chain; simpl; unfold item_fails, select_field; simpl;
  repeat match goal with
         | |- context [if negb ?b then _ else _] => destruct b; simpl
         | |- context [if ?b then _ else _] => destruct b; simpl
         end; reflexivity.

Lemma run_get_id req : run_chain Rules.get_id req = id_errors (id_param req).
Proof. unfold id_errors, when, id_param. run_chain_eval. Qed.

Lemma run_put_id req : run_chain Rules.put_id req = id_errors (id_param req).
Proof. unfold id_errors, when, id_param. run_chain_eval. Qed.

Lemma run_patch_id req : run_chain Rules.patch_id req = id_errors (id_param req).
Proof. unfold id_errors, when, id_param. run_chain_eval. Qed.

Lemma run_delete_id req : run_chain Rules.delete_id req = id_errors (id_param req).
Proof. unfold id_errors, when, id_param. run_chain_eval. Qed.

Lemma run_post_name req :
  run_chain Rules.post_name req = name_errors (body_field "name" req).
Proof. unfold name_errors, when, body_field. run_chain_eval. Qed.

Lemma run_put_name req :
  run_chain Rules.put_name req = name_errors (body_field "name" req).
Proof. unfold name_errors, when, body_field. run_chain_eval. Qed.

Lemma run_post_price req :
  run_chain Rules.post_price req = price_errors (body_field "price" req).
Proof. unfold price_errors, when, body_field. run_chain_eval. Qed.

Lemma run_put_price req :
  run_chain Rules.put_price req = price_errors (body_field "price" req).
Proof. unfold price_errors, when, body_field. run_chain_eval. Qed.

Lemma run_put_availability req :
  run_chain Rules.put_availability req =
  availability_errors (body_field "availability" req).
Proof. unfold availability_errors, when, body_field. run_chain_eval. Qed.

Lemma violations_post req :
  violations Rules.post req =
  name_errors (body_field "name" req) ++ price_errors (body_field "price" req).
Proof.
  unfold Rules.post. rewrite !violations_cons, run_post_name, run_post_price.
  by rewrite app_nil_r.
Qed.

Lemma violations_put req :
  violations Rules.put req =
  id_errors (id_param req) ++ name_errors (body_field "name" req)
  ++ price_errors (body_field "price" req)
  ++ availability_errors (body_field "availability" req).
Proof.
  unfold Rules.put.
  rewrite !violations_cons, run_put_id, run_put_name, run_put_price,
    run_put_availability.
  by rewrite app_nil_r.
Qed.

Lemma violations_id rules req :
  rules = Rules.get_by_id \/ rules = Rules.patch \/ rules = Rules.delete ->
  violations rules req = id_errors (id_param req).
Proof.
  intros [-> | [-> | ->]];
    unfold Rules.get_by_id, Rules.patch, Rules.delete;
    rewrite violations_cons, ?run_get_id, ?run_patch_id, ?run_delete_id;
    by rewrite app_nil_r.
Qed.

(** ** Dispatch *)

Lemma isInt_nonempty s : Validator.isInt s = true -> String.length s <> 0%nat.
Proof. destruct s; [discriminate | simpl; lia]. Qed.

Lemma run_gate rules (m : Middleware) ps b db :
  run_middlewares ((validate <$> rules) ++ [handleInputErrors; m])
    (mkRequest ps b []) db =
  let req := mkRequest ps b [] in
  if is_nil (violations rules req)
  then m (mkRequest ps b ((fun c => run_chain c req) <$> rules))
         (run_middlewares []) db
  else (Some (res_status_json 400 (Errores (violations rules req))), db).
Proof.
  rewrite run_validate. simpl.
  unfold handleInputErrors, validationResult. simpl.
  rewrite concat_run_chains.
  by destruct (violations rules _).
Qed.

Lemma api_post b db :
  api (mkHttp POST [] b) db =
  let req := mkRequest ∅ b [] in
  if is_nil (violations Rules.post req)
  then createProduct (mkRequest ∅ b ((fun c => run_chain c req) <$> Rules.post)) db
  else (Some (res_status_json 400 (Errores (violations Rules.post req))), db).
Proof.
  change (api (mkHttp POST [] b) db) with
    (run_middlewares
       ((validate <$> Rules.post)
        ++ [handleInputErrors; handler_or_silence createProduct])
       (mkRequest ∅ b []) db).
  by rewrite run_gate.
Qed.

Lemma api_with_id m s b db :
  String.length s <> 0%nat ->
  api (mkHttp m [s] b) db =
  match m with
  | GET => run_middlewares (guarded Rules.get_by_id getProductById)
  | POST => fun _ => ret None
  | PUT => run_middlewares (guarded Rules.put updateProduct)
  | PATCH => run_middlewares (guarded Rules.patch updateAvailability)
  | DELETE => run_middlewares (guarded Rules.delete deleteProduct)
  end (mkRequest {[ "id" := s ]} b []) db.
Proof.
  intros Hs. unfold api, router.
  destruct m; simpl; destruct (Nat.eqb_spec (String.length s) 0); done.
Qed.

(** ** The validation gate *)

Lemma no_violations_contexts rules req :
  violations rules req = [] ->
  (fun c => run_chain c req) <$> rules = (fun _ => []) <$> rules.
Proof.
  induction rules as [|c rules IH]; csimpl; [done|].
  rewrite violations_cons. intros [-> Hrest]%app_eq_nil.
  by rewrite IH.
Qed.

(** C1: on a guarded route the gate answers 400 with body
    [{ errores: [...] }] holding exactly one entry per violated constraint, in
    declaration order, without running the handler (the answer does not
    depend on it and the store is untouched) whenever some constraint is
    violated; otherwise the handler runs on the same parameters and body. *)
Theorem handleInputErrors_gate rules h ps b db :
  let req := mkRequest ps b [] in
  let errores := entry req <$> List.filter (violated req) (constraints rules) in
  run_middlewares (guarded rules h) req db =
  if is_nil errores
  then
    let req' := mkRequest ps b ((fun _ => []) <$> rules) in
    (Some (fst (h req' db)), snd (h req' db))
  else (Some (mkResponse 400 (Errores errores)), db).
Proof.
  cbv zeta. rewrite run_guarded. cbv zeta.
  fold (violations rules (mkRequest ps b [])).
  destruct (violations rules (mkRequest ps b [])) as [|e es] eqn:He; simpl; [|done].
  by rewrite (no_violations_contexts rules _ He).
Qed.

(** ** Violation counts on the create and replace routes *)

(** C3: a create request whose body has neither [name] nor [price] is
    answered 400 with exactly four entries, in declaration order: empty name,
    non-numeric price, empty price, price not above 0. *)
Theorem create_without_name_and_price b db :
  b !! "name" = None ->
  b !! "price" = None ->
  api (mkHttp POST [] b) db =
  (Some (mkResponse 400 (Errores
     [ mkError LBody "name" JUndefined "El nombre del producto no puede ir vacio";
       mkError LBody "price" JUndefined "Valor no valido";
       mkError LBody "price" JUndefined "El precio del producto no puede ir vacio";
       mkError LBody "price" JUndefined "Precio no valido" ])), db).
Proof.
  intros Hname Hprice. rewrite api_post. simpl.
  rewrite violations_post. unfold body_field. simpl.
  rewrite Hname, Hprice. reflexivity.
Qed.

Lemma create_without_name_and_price_witness :
  api (mkHttp POST [] ∅) Product.empty =
  (Some (mkResponse 400 (Errores
     [ mkError LBody "name" JUndefined "El nombre del producto no puede ir vacio";
       mkError LBody "price" JUndefined "Valor no valido";
       mkError LBody "price" JUndefined "El precio del producto no puede ir vacio";
       mkError LBody "price" JUndefined "Precio no valido" ])), Product.empty).
Proof. apply create_without_name_and_price; reflexivity. Defined.

(** C4: a create request with a non-empty name and the price ["hola"] is
    answered 400 with exactly two entries: the numeric check and the
    positivity check both fail. *)
Theorem create_with_price_hola b nm db :
  b !! "name" = Some nm ->
  Validator.isEmpty (toString nm) = false ->
  b !! "price" = Some (JStr "hola") ->
  api (mkHttp POST [] b) db =
  (Some (mkResponse 400 (Errores
     [ mkError LBody "price" (JStr "hola") "Valor no valido";
       mkError LBody "price" (JStr "hola") "Precio no valido" ])), db).
Proof.
  intros Hname Hnm Hprice. rewrite api_post. simpl.
  rewrite violations_post. unfold body_field. simpl.
  rewrite Hname, Hprice. simpl. unfold name_errors. rewrite Hnm. reflexivity.
Qed.

Lemma create_with_price_hola_witness :
  api (mkHttp POST []
         {[ "name" := JStr "Play station 5"; "price" := JStr "hola" ]})
      Product.empty =
  (Some (mkResponse 400 (Errores
     [ mkError LBody "price" (JStr "hola") "Valor no valido";
       mkError LBody "price" (JStr "hola") "Precio no valido" ])), Product.empty).
Proof.
  apply (create_with_price_hola _ (JStr "Play station 5")); reflexivity.
Defined.

(** C5: a replace request with an integer id and an empty body is answered
    400 with exactly five entries: one for the name, three for the price, one
    for the availability. *)
Theorem replace_with_empty_body s db :
  Validator.isInt s = true ->
  api (mkHttp PUT [s] ∅) db =
  (Some (mkResponse 400 (Errores
     [ mkError LBody "name" JUndefined "El nombre del producto no puede ir vacio";
       mkError LBody "price" JUndefined "Valor no valido";
       mkError LBody "price" JUndefined "El precio del producto no puede ir vacio";
       mkError LBody "price" JUndefined "Precio no valido";
       mkError LBody "availability" JUndefined
         "Debes de actualizar el estado del producto" ])), db).
Proof.
  intros Hs. rewrite api_with_id by by apply isInt_nonempty.
  rewrite run_guarded. simpl. rewrite violations_put.
  unfold id_param, body_field. simpl. rewrite lookup_singleton_eq. simpl.
  unfold id_errors. change (toString (JStr s)) with s. rewrite Hs.
  reflexivity.
Qed.

Lemma replace_with_empty_body_witness :
  api (mkHttp PUT ["1"] ∅) Product.empty =
  (Some (mkResponse 400 (Errores
     [ mkError LBody "name" JUndefined "El nombre del producto no puede ir vacio";
       mkError LBody "price" JUndefined "Valor no valido";
       mkError LBody "price" JUndefined "El precio del producto no puede ir vacio";
       mkError LBody "price" JUndefined "Precio no valido";
       mkError LBody "availability" JUndefined
         "Debes de actualizar el estado del producto" ])), Product.empty).
Proof. apply replace_with_empty_body; reflexivity. Defined.

(** ** The price chain of replace against the one of create *)

(** C10: the price chain of the replace route is the price chain of the
    create route: the same three checks with the same messages in the same
    order, so on every body both routes report the same sequence of price
    violations. *)
Theorem replace_price_chain_is_create_price_chain :
  Rules.put_price = Rules.post_price
  /\ message <$> stack Rules.put_price =
     ["Valor no valido"; "El precio del producto no puede ir vacio";
      "Precio no valido"]
  /\ forall ps ps' b,
       run_chain Rules.put_price (mkRequest ps b []) =
       run_chain Rules.post_price (mkRequest ps' b [])
       /\ List.filter (on_path "price") (violations Rules.put (mkRequest ps b [])) =
          List.filter (on_path "price") (violations Rules.post (mkRequest ps' b [])).
Proof.
  split; [reflexivity|]. split; [reflexivity|]. intros ps ps' b.
  split; [reflexivity|].
  rewrite violations_put, violations_post.
  unfold id_errors, name_errors, price_errors, availability_errors, when,
    body_field.
  simpl.
  repeat match goal with
         | |- context [if negb ?c then _ else _] => destruct c; simpl
         | |- context [if ?c then _ else _] => destruct c; simpl
         end; reflexivity.
Qed.

(** ** The handlers, call by call *)

Lemma findByPk_run key db :
  Storage.findByPk key db = (lookup_row key db, logged (Product.FindByPk key) db).
Proof. reflexivity. Qed.

Lemma getProductById_run req db :
  getProductById req db =
  (match lookup_row (params req !! "id") db with
   | Some p => res_json (Data p)
   | None => not_found
   end, logged (Product.FindByPk (params req !! "id")) db).
Proof.
  unfold getProductById. rewrite bind_run, findByPk_run. simpl.
  destruct (lookup_row _ _); reflexivity.
Qed.

Lemma createProduct_run req db :
  createProduct req db =
  match create_key (body_of req) db with
  | Some k =>
      (Some (mkResponse 201 (Data (created k (body_of req)))),
       Product.mkDb (<[k := created k (body_of req)]> (Product.rows db))
         (next_after_create (body_of req) db)
         (Product.calls db ++ [Product.Create (body_of req)]))
  | None =>
      (None,
       Product.mkDb (Product.rows db) (next_after_create (body_of req) db)
         (Product.calls db ++ [Product.Create (body_of req)]))
  end.
Proof.
  unfold createProduct, Storage.create, create_key, next_after_create,
    Storage.record, bind, ret. simpl.
  destruct (Storage.requested_key _ _) as [k|]; [|done].
  by destruct (Storage.key_usable _ k).
Qed.

Lemma updateProduct_missing req db :
  lookup_row (params req !! "id") db = None ->
  updateProduct req db =
  (not_found, logged (Product.FindByPk (params req !! "id")) db).
Proof.
  intros H. unfold updateProduct. rewrite bind_run, findByPk_run. simpl.
  by rewrite H.
Qed.

Lemma updateProduct_found req db p :
  lookup_row (params req !! "id") db = Some p ->
  Product.rows db !! Product.id p = Some p ->
  updateProduct req db =
  (res_json (Data (replaced p (body_of req))),
   Product.mkDb
     (<[Product.id p := replaced p (body_of req)]> (Product.rows db))
     (Product.next_id db)
     (Product.calls db ++
        [Product.FindByPk (params req !! "id");
         Product.Update (Product.id p) (body_of req);
         Product.Save (Product.id p)])).
Proof.
  intros H Hp. unfold updateProduct. rewrite bind_run, findByPk_run. simpl.
  rewrite H. unfold Storage.update, Storage.save, Storage.write, Storage.record,
    bind, ret, logged. simpl.
  rewrite Hp. simpl. rewrite lookup_insert_eq. simpl.
  rewrite insert_insert_eq. unfold res_json, replaced.
  by rewrite <- !app_assoc.
Qed.

Lemma updateAvailability_missing req db :
  lookup_row (params req !! "id") db = None ->
  updateAvailability req db =
  (not_found, logged (Product.FindByPk (params req !! "id")) db).
Proof.
  intros H. unfold updateAvailability. rewrite bind_run, findByPk_run. simpl.
  by rewrite H.
Qed.

Lemma updateAvailability_found req db p :
  lookup_row (params req !! "id") db = Some p ->
  Product.rows db !! Product.id p = Some p ->
  updateAvailability req db =
  (res_json (Data (toggled p)),
   Product.mkDb
     (<[Product.id p := toggled p]> (Product.rows db))
     (Product.next_id db)
     (Product.calls db ++
        [Product.FindByPk (params req !! "id"); Product.Save (Product.id p)])).
Proof.
  intros H Hp. unfold updateAvailability. rewrite bind_run, findByPk_run. simpl.
  rewrite H. unfold Storage.save, Storage.write, Storage.record, bind, ret, logged.
  simpl. rewrite Hp. unfold res_json, toggled.
  by rewrite <- !app_assoc.
Qed.

Lemma deleteProduct_missing req db :
  lookup_row (params req !! "id") db = None ->
  deleteProduct req db =
  (not_found, logged (Product.FindByPk (params req !! "id")) db).
Proof.
  intros H. unfold deleteProduct. rewrite bind_run, findByPk_run. simpl.
  by rewrite H.
Qed.

Lemma deleteProduct_found req db p :
  lookup_row (params req !! "id") db = Some p ->
  deleteProduct req db =
  (res_json (DataString "Producto eliminado"),
   Product.mkDb
     (delete (Product.id p) (Product.rows db))
     (Product.next_id db)
     (Product.calls db ++
        [Product.FindByPk (params req !! "id"); Product.Destroy (Product.id p)])).
Proof.
  intros H. unfold deleteProduct. rewrite bind_run, findByPk_run. simpl.
  rewrite H. unfold Storage.destroy, Storage.record, bind, ret, logged.
  simpl. unfold res_json. by rewrite <- !app_assoc.
Qed.

Lemma lookup_row_Some s db :
  lookup_row (Some s) db =
  match Storage.key_of_string s with
  | Some k => Product.rows db !! k
  | None => None
  end.
Proof. unfold lookup_row. simpl. by destruct (Storage.key_of_string s). Qed.

Lemma key_of_string_isInt s k :
  Storage.key_of_string s = Some k -> Validator.isInt s = true.
Proof. unfold Storage.key_of_string. by destruct (Validator.isInt s). Qed.

(** ** Not found *)

(** C2: for get-by-id, replace, toggle-availability and delete, a validated
    integer id with no matching row is answered 404 with body
    [{ error: "Producto no encontrado" }]; the only storage call made is the
    read by key, and the rows and the key counter are left as they were. *)
Theorem missing_row_answers_404 req s k db :
  params req !! "id" = Some s ->
  Validator.isInt s = true ->
  Storage.key_of_string s = Some k ->
  Product.rows db !! k = None ->
  let res := mkResponse 404 (Error "Producto no encontrado") in
  let db' :=
    Product.mkDb (Product.rows db) (Product.next_id db)
      (Product.calls db ++ [Product.FindByPk (Some s)]) in
  getProductById req db = (res, db')
  /\ updateProduct req db = (res, db')
  /\ updateAvailability req db = (res, db')
  /\ deleteProduct req db = (res, db')
  /\ Product.mutating (Product.FindByPk (Some s)) = false.
Proof.
  intros Hid _ Hk Hrow res db'.
  assert (Hmiss : lookup_row (params req !! "id") db = None).
  { by rewrite Hid, lookup_row_Some, Hk. }
  rewrite getProductById_run, updateProduct_missing, updateAvailability_missing,
    deleteProduct_missing by done.
  rewrite Hmiss, Hid. done.
Qed.

Lemma missing_row_answers_404_witness :
  let req := mkRequest {[ "id" := "2000" ]} ∅ [] in
  let res := mkResponse 404 (Error "Producto no encontrado") in
  let db' := Product.mkDb ∅ 1 [Product.FindByPk (Some "2000")] in
  getProductById req Product.empty = (res, db')
  /\ updateProduct req Product.empty = (res, db')
  /\ updateAvailability req Product.empty = (res, db')
  /\ deleteProduct req Product.empty = (res, db')
  /\ Product.mutating (Product.FindByPk (Some "2000")) = false.
Proof.
  apply (missing_row_answers_404
           (mkRequest {[ "id" := "2000" ]} ∅ []) "2000" 2000 Product.empty);
    reflexivity.
Defined.

(** ** What one request does to the rows *)

Lemma lookup_row_well_keyed key db p :
  well_keyed db -> lookup_row key db = Some p ->
  Product.rows db !! Product.id p = Some p.
Proof.
  intros Hwk. destruct key as [s|]; [|done].
  rewrite lookup_row_Some. destruct (Storage.key_of_string s) as [k|]; [|done].
  intros H. by rewrite (Hwk _ _ H).
Qed.

Lemma guarded_rows rules h ps b db (P : gmap Z Product.t -> Prop) :
  P (Product.rows db) ->
  (violations rules (mkRequest ps b []) = [] ->
   forall ctx, P (Product.rows (snd (h (mkRequest ps b ctx) db)))) ->
  P (Product.rows (snd (run_middlewares (guarded rules h) (mkRequest ps b []) db))).
Proof.
  intros Hsame Hrun. rewrite run_guarded. cbv zeta.
  destruct (violations rules _) eqn:Hv; simpl; [by apply Hrun | done].
Qed.

Lemma api_rows h db :
  well_keyed db -> row_step db (Product.rows (snd (api h db))).
Proof.
  intros Hwk. destruct h as [m [|s [|s' rest]] b].
  - destruct m; try exact (rows_same db).
    rewrite api_post. cbv zeta.
    destruct (violations Rules.post _) eqn:Hv; simpl; [|exact (rows_same db)].
    rewrite createProduct_run.
    destruct (create_key _ _); simpl; [by apply rows_created|exact (rows_same db)].
  - destruct (decide (String.length s = 0%nat)) as [Hs|Hs].
    { destruct s; [|done]. destruct m; exact (rows_same db). }
    rewrite api_with_id by done.
    destruct m; try exact (rows_same db);
      apply guarded_rows; try apply rows_same; intros Hv ctx.
    + rewrite getProductById_run. exact (rows_same db).
    + destruct (lookup_row (params (mkRequest {["id" := s]} b ctx) !! "id") db)
        as [p|] eqn:Hp.
      * pose proof (lookup_row_well_keyed _ _ _ Hwk Hp) as Hrow.
        rewrite (updateProduct_found _ _ _ Hp Hrow). simpl.
        by eapply rows_replaced.
      * rewrite updateProduct_missing by done. exact (rows_same db).
    + destruct (lookup_row (params (mkRequest {["id" := s]} b ctx) !! "id") db)
        as [p|] eqn:Hp.
      * pose proof (lookup_row_well_keyed _ _ _ Hwk Hp) as Hrow.
        rewrite (updateAvailability_found _ _ _ Hp Hrow). simpl.
        by apply rows_toggled.
      * rewrite updateAvailability_missing by done. exact (rows_same db).
    + destruct (lookup_row (params (mkRequest {["id" := s]} b ctx) !! "id") db)
        as [p|] eqn:Hp.
      * rewrite (deleteProduct_found _ _ _ Hp). simpl. apply rows_deleted.
      * rewrite deleteProduct_missing by done. exact (rows_same db).
  - destruct m; exact (rows_same db).
Qed.

(** An invariant of the rows that each kind of change respects holds after
    every request. *)
Lemma row_step_invariant (good : Product.t -> Prop) db rows' :
  (forall k b, violations Rules.post (mkRequest ∅ b []) = [] ->
               good (created k b)) ->
  (forall p ps b, good p -> violations Rules.put (mkRequest ps b []) = [] ->
                  good (replaced p b)) ->
  (forall p, good p -> good (toggled p)) ->
  row_step db rows' ->
  (forall k p, Product.rows db !! k = Some p -> good p) ->
  forall k p, rows' !! k = Some p -> good p.
Proof.
  intros Hc Hr Ht Hstep Hall k p.
  destruct Hstep as [|k1 b Hv|p0 ps b Hp0 Hv|p0 Hp0|k0].
  - apply Hall.
  - rewrite lookup_insert. case_decide; [|apply Hall].
    intros [= <-]. by apply Hc.
  - rewrite lookup_insert. case_decide; [|apply Hall].
    intros [= <-]. eapply Hr; [by eapply Hall|done].
  - rewrite lookup_insert. case_decide; [|apply Hall].
    intros [= <-]. apply Ht. by eapply Hall.
  - rewrite lookup_delete. case_decide; [done|apply Hall].
Qed.

Lemma well_keyed_step h db : well_keyed db -> well_keyed (snd (api h db)).
Proof.
  intros Hwk k p Hkp. unfold well_keyed in Hwk.
  destruct (api_rows h db Hwk) as [|k1 b Hv|p0 ps b Hp0 Hv|p0 Hp0|k0].
  - by apply Hwk.
  - rewrite lookup_insert in Hkp. case_decide; [|by apply Hwk].
    by injection Hkp as <-.
  - rewrite lookup_insert in Hkp. case_decide; [|by apply Hwk].
    by injection Hkp as <-.
  - rewrite lookup_insert in Hkp. case_decide; [|by apply Hwk].
    by injection Hkp as <-.
  - rewrite lookup_delete in Hkp. case_decide; [done|by apply Hwk].
Qed.

Lemma reachable_well_keyed db : reachable db -> well_keyed db.
Proof.
  induction 1 as [|h db _ IH]; [|by apply well_keyed_step].
  intros k p. simpl. by rewrite lookup_empty.
Qed.

(** ** Routes with an id, once the id is valid *)

Lemma api_id_route m s b db :
  Validator.isInt s = true ->
  m = GET \/ m = PATCH \/ m = DELETE ->
  api (mkHttp m [s] b) db =
  let req := mkRequest {[ "id" := s ]} b [[]] in
  let h := match m with
           | GET => getProductById
           | PATCH => updateAvailability
           | _ => deleteProduct
           end in
  (Some (fst (h req db)), snd (h req db)).
Proof.
  intros Hs Hm. rewrite api_with_id by by apply isInt_nonempty.
  destruct Hm as [-> | [-> | ->]]; rewrite run_guarded; cbv zeta;
    rewrite violations_id by auto;
    unfold id_errors, id_param; simpl; rewrite lookup_singleton_eq; simpl;
    change (toString (JStr s)) with s; rewrite Hs; simpl;
    unfold run_chain, select_field; simpl; rewrite lookup_singleton_eq; simpl;
    unfold item_fails; simpl; change (toString (JStr s)) with s; rewrite Hs;
    reflexivity.
Qed.

Lemma api_id_invalid m s b db :
  String.length s <> 0%nat ->
  Validator.isInt s = false ->
  m = GET \/ m = PATCH \/ m = DELETE ->
  api (mkHttp m [s] b) db =
  (Some (mkResponse 400 (Errores [mkError LParams "id" (JStr s) "ID no valido"])), db).
Proof.
  intros Hlen Hs Hm. rewrite api_with_id by done.
  destruct Hm as [-> | [-> | ->]]; rewrite run_guarded; cbv zeta;
    rewrite violations_id by auto;
    unfold id_errors, id_param; simpl; rewrite lookup_singleton_eq; simpl;
    change (toString (JStr s)) with s; rewrite Hs; reflexivity.
Qed.

(** ** Toggling availability *)

(** C6: a toggle-availability request on an existing id is answered 200 with
    the product whose availability is the negation of the stored one and
    whose id, name and price are the stored ones; that product replaces the
    stored row. *)
Theorem toggle_negates_availability s k p b db :
  reachable db ->
  Storage.key_of_string s = Some k ->
  Product.rows db !! k = Some p ->
  let data :=
    Product.mk (Product.id p) (Product.name p) (Product.price p)
      (JBool (negb (ToBoolean (Product.availability p)))) in
  api (mkHttp PATCH [s] b) db =
    (Some (mkResponse 200 (Data data)),
     Product.mkDb (<[k := data]> (Product.rows db)) (Product.next_id db)
       (Product.calls db ++ [Product.FindByPk (Some s); Product.Save k]))
  /\ (forall stored, Product.availability p = JBool stored ->
      Product.availability data = JBool (negb stored))
  /\ Product.id data = Product.id p
  /\ Product.name data = Product.name p
  /\ Product.price data = Product.price p
  /\ Product.id p = k.
Proof.
  intros Hreach Hk Hp data.
  pose proof (reachable_well_keyed _ Hreach _ _ Hp) as Hid.
  split; [|split; [by intros stored Hst; simpl; rewrite Hst | done]].
  rewrite api_id_route by (eauto using key_of_string_isInt). cbv zeta.
  assert (Hrow : lookup_row (params (mkRequest {["id" := s]} b [[]]) !! "id") db
                 = Some p).
  { simpl. by rewrite lookup_singleton_eq, lookup_row_Some, Hk. }
  rewrite (updateAvailability_found _ _ _ Hrow) by by rewrite Hid.
  simpl. rewrite lookup_singleton_eq, Hid. reflexivity.
Qed.

(** ** Creating *)

Lemma when_nil b e : when b e = [] -> b = false.
Proof. by destruct b. Qed.

Lemma name_errors_nil v : name_errors v = [] -> Validator.isEmpty (toString v) = false.
Proof. apply when_nil. Qed.

Lemma price_errors_nil v :
  price_errors v = [] ->
  Validator.isNumeric (toString v) = true /\ gt_zero v = true.
Proof.
  unfold price_errors. intros [H1 [_ H3]%app_eq_nil]%app_eq_nil.
  apply when_nil in H1, H3. by destruct (Validator.isNumeric _), (gt_zero v).
Qed.

Lemma body_field_present f req :
  toString (body_field f req) <> "" -> body_of req !! f = Some (body_field f req).
Proof. unfold body_field. by destruct (body_of req !! f). Qed.

Lemma isEmpty_false s : Validator.isEmpty s = false -> s <> "".
Proof. by intros H ->. Qed.

Lemma isNumeric_nonempty s : Validator.isNumeric s = true -> s <> "".
Proof. by intros H ->. Qed.







Lemma toggle_negates_availability_witness :
  let db := snd (api (mkHttp POST [] mouse) Product.empty) in
  fst (api (mkHttp PATCH ["1"] ∅) db) =
  Some (mkResponse 200 (Data (Product.mk 1 (JStr "Mouse") (JNum 50) (JBool false)))).
Proof.
  intros db.
  destruct (toggle_negates_availability "1" 1
              (Product.mk 1 (JStr "Mouse") (JNum 50) (JBool true)) ∅ db)
    as [H _].
  - apply reachable_step, reachable_empty.
  - reflexivity.
  - reflexivity.
  - rewrite H. reflexivity.
Defined.


(** ** Deleting twice *)

(** C9: once a delete on an id has been answered 200 with
    ["Producto eliminado"], the row is gone, and a second delete on the same
    id is answered 404 with [{ error: "Producto no encontrado" }]. *)
Theorem delete_again_answers_404 s b b' db db1 :
  reachable db ->
  api (mkHttp DELETE [s] b) db =
    (Some (mkResponse 200 (DataString "Producto eliminado")), db1) ->
  api (mkHttp DELETE [s] b') db1 =
    (Some (mkResponse 404 (Error "Producto no encontrado")),
     Product.mkDb (Product.rows db1) (Product.next_id db1)
       (Product.calls db1 ++ [Product.FindByPk (Some s)]))
  /\ exists k, Storage.key_of_string s = Some k /\ Product.rows db1 !! k = None.
Proof.
  intros Hreach Hfirst.
  destruct (decide (String.length s = 0%nat)) as [Hlen|Hlen].
  { destruct s; [discriminate Hfirst | done]. }
  destruct (Validator.isInt s) eqn:Hs.
  2: { rewrite api_id_invalid in Hfirst by auto. discriminate Hfirst. }
  rewrite api_id_route in Hfirst by auto. cbv zeta in Hfirst.
  rewrite api_id_route by auto. cbv zeta.
  set (req := mkRequest {["id" := s]} b [[]]) in *.
  set (req' := mkRequest {["id" := s]} b' [[]]).
  assert (Hid : forall r, params r = {["id" := s]} -> params r !! "id" = Some s).
  { intros r ->. apply lookup_singleton_eq. }
  destruct (lookup_row (params req !! "id") db) as [p|] eqn:Hp.
  2: { rewrite deleteProduct_missing in Hfirst by done. discriminate Hfirst. }
  rewrite (deleteProduct_found _ _ _ Hp) in Hfirst. simpl in Hfirst.
  injection Hfirst as <-.
  rewrite Hid, lookup_row_Some in Hp by done.
  destruct (Storage.key_of_string s) as [k|] eqn:Hk; [|done].
  rewrite (reachable_well_keyed _ Hreach _ _ Hp).
  assert (Hgone : lookup_row (params req' !! "id")
            (Product.mkDb (delete k (Product.rows db)) (Product.next_id db)
               (Product.calls db ++
                  [Product.FindByPk (params req !! "id"); Product.Destroy k]))
          = None).
  { rewrite Hid, lookup_row_Some, Hk by done. simpl. apply lookup_delete_eq. }
  rewrite deleteProduct_missing by done. rewrite !Hid by done.
  split; [reflexivity|]. exists k. split; [done|]. simpl. apply lookup_delete_eq.
Qed.

Lemma delete_again_answers_404_witness :
  let db := snd (api (mkHttp POST [] mouse) Product.empty) in
  let db1 := snd (api (mkHttp DELETE ["1"] ∅) db) in
  fst (api (mkHttp DELETE ["1"] ∅) db1) =
  Some (mkResponse 404 (Error "Producto no encontrado")).
Proof.
  intros db db1.
  destruct (delete_again_answers_404 "1" ∅ ∅ db db1) as [H _].
  - apply reachable_step, reachable_empty.
  - reflexivity.
  - rewrite H. reflexivity.
Defined.

(** ** Numeric strings *)

Lemma span_app p cs : cs = fst (span p cs) ++ snd (span p cs).
Proof.
  induction cs as [|c cs IH]; simpl; [done|].
  destruct (p c); [|done]. destruct (span p cs). simpl in *. by rewrite <- IH.
Qed.

Lemma span_forallb p cs : forallb p (fst (span p cs)) = true.
Proof.
  induction cs as [|c cs IH]; simpl; [done|].
  destruct (p c) eqn:Hc; [|done]. destruct (span p cs). simpl in *.
  by rewrite Hc, IH.
Qed.

Lemma strip_sign_cases cs :
  (exists t, cs = "+"%char :: t /\ strip_sign cs = (false, t))
  \/ (exists t, cs = "-"%char :: t /\ strip_sign cs = (true, t))
  \/ strip_sign cs = (false, cs).
Proof.
  destruct cs as [|c t]; [by right; right|].
  destruct c as [[] [] [] [] [] [] [] []];
    try (by right; right); [left | right; left]; by exists t.
Qed.

Lemma strip_sign_In c cs : In c (snd (strip_sign cs)) -> In c cs.
Proof.
  destruct (strip_sign_cases cs) as [(t & -> & ->) | [(t & -> & ->) | ->]];
    simpl; auto.
Qed.

Lemma trim_start_In c cs : In c (trim_start cs) -> In c cs.
Proof.
  induction cs as [|c' cs IH]; simpl; [done|].
  destruct (is_white_space c'); simpl; auto.
Qed.

Lemma trim_In c cs : In c (trim cs) -> In c cs.
Proof.
  unfold trim. intros H.
  apply in_rev, trim_start_In, in_rev, trim_start_In in H. done.
Qed.

Lemma forallb_weaken {A} (p q : A -> bool) l :
  (forall x, p x = true -> q x = true) ->
  forallb p l = true -> forallb q l = true.
Proof.
  intros Hpq. rewrite !forallb_forall. auto.
Qed.

Lemma digit_numeric c : is_digit c = true -> numeric_char c = true.
Proof. unfold numeric_char. by intros ->. Qed.

(** A string that [isNumeric] accepts is made of digits, signs and dots. *)
Lemma isNumeric_chars s :
  Validator.isNumeric s = true -> forallb numeric_char (chars s) = true.
Proof.
  unfold Validator.isNumeric.
  assert (Hbody : forall r0,
    (let '(_, r1) := span is_digit r0 in
     match r1 with
     | [] => negb (is_nil r0)
     | "."%char :: fr => negb (is_nil fr) && forallb is_digit fr
     | _ => false
     end) = true -> forallb numeric_char r0 = true).
  { intros r0 H. rewrite (span_app is_digit r0), forallb_app.
    pose proof (span_forallb is_digit r0) as Hip.
    destruct (span is_digit r0) as [ip r1]. simpl in *.
    rewrite (forallb_weaken _ _ _ digit_numeric Hip). simpl.
    destruct r1 as [|c fr]; [done|].
    destruct c as [[] [] [] [] [] [] [] []]; try discriminate H.
    apply andb_true_iff in H as [_ H]. simpl.
    by apply (forallb_weaken _ _ _ digit_numeric). }
  destruct (strip_sign_cases (chars s)) as [(t & -> & ->) | [(t & -> & ->) | ->]];
    intros H; apply Hbody in H; simpl; done.
Qed.

Lemma chars_eqb_eq a b : chars_eqb a b = true -> a = b.
Proof.
  unfold chars_eqb. intros H%String.eqb_eq.
  apply (f_equal list_ascii_of_string) in H.
  by rewrite !list_ascii_of_string_of_list_ascii in H.
Qed.

Lemma decimal_literal_infinite cs neg :
  decimal_literal cs = Infinite neg -> In "I"%char cs.
Proof.
  unfold decimal_literal. intros H. apply strip_sign_In.
  destruct (strip_sign cs) as [n r0]. simpl.
  destruct (chars_eqb r0 (chars "Infinity")) eqn:Heq.
  - apply chars_eqb_eq in Heq as ->. simpl. auto.
  - destruct (span is_digit r0) as [ip r1].
    destruct (match r1 with
              | "."%char :: t => span is_digit t
              | _ => ([], r1)
              end) as [fr r2].
    destruct (is_nil ip && is_nil fr); [done|].
    by destruct (exponent_part r2).
Qed.

(** A string that [isNumeric] accepts does not denote an infinity. *)
Lemma isNumeric_not_infinite s neg :
  Validator.isNumeric s = true -> StringToNumber s <> Infinite neg.
Proof.
  intros Hnum Hinf. apply isNumeric_chars in Hnum.
  rewrite forallb_forall in Hnum.
  assert (In "I"%char (chars s)) as HI%Hnum; [|done].
  unfold StringToNumber in Hinf.
  destruct (is_nil (trim (chars s))); [done|].
  destruct (non_decimal_literal (trim (chars s))); [done|].
  by apply decimal_literal_infinite, trim_In in Hinf.
Qed.

Lemma above_underflow_positive mv :
  Qltb underflow_bound mv = true -> (0 < mv)%Q.
Proof.
  unfold Qltb. rewrite negb_true_iff. intros H.
  apply Qlt_trans with underflow_bound; [reflexivity|].
  apply Qnot_le_lt. intros Hle. apply Qle_bool_iff in Hle. congruence.
Qed.

(** A price the three checks accept reads as a number above zero. *)
Lemma validated_price v :
  Validator.isNumeric (toString v) = true ->
  gt_zero v = true ->
  exists q, price_reading v = Some q /\ (0 < q)%Q.
Proof.
  intros Hnum Hgt. destruct v as [| |bv|n|s]; try discriminate Hnum.
  - by destruct bv.
  - exists (inject_Z n). split; [done|]. by apply above_underflow_positive.
  - unfold gt_zero in Hgt. simpl in *.
    change (toString (JStr s)) with s in Hnum.
    destruct (StringToNumber s) as [|mv|neg] eqn:Hs.
    + done.
    + exists mv. split; [done|]. by apply above_underflow_positive.
    + by apply isNumeric_not_infinite with (neg := neg) in Hnum.
Qed.

(** ** The invariant of stored products *)

Lemma validated_fields nm pr :
  name_errors nm = [] -> price_errors pr = [] ->
  forall k a, good (Product.mk k nm pr a).
Proof.
  intros Hn [Hnum Hgt]%price_errors_nil k a. split.
  - by apply validated_price.
  - by apply isEmpty_false, name_errors_nil.
Qed.

Lemma created_good k b :
  violations Rules.post (mkRequest ∅ b []) = [] -> good (created k b).
Proof.
  rewrite violations_post. intros [Hn Hp]%app_eq_nil.
  by apply validated_fields.
Qed.

Lemma replaced_good p ps b :
  violations Rules.put (mkRequest ps b []) = [] -> good (replaced p b).
Proof.
  rewrite violations_put.
  intros [_ [Hn [Hp _]%app_eq_nil]%app_eq_nil]%app_eq_nil.
  pose proof (validated_fields _ _ Hn Hp) as Hgood.
  pose proof Hn as Hn'. pose proof Hp as Hp'.
  apply name_errors_nil, isEmpty_false, body_field_present in Hn'.
  apply price_errors_nil in Hp' as [Hp' _].
  apply isNumeric_nonempty, body_field_present in Hp'. simpl in Hn', Hp'.
  unfold replaced. rewrite Hn', Hp'. apply Hgood.
Qed.

Lemma toggled_good p : good p -> good (toggled p).
Proof. by intros [? ?]. Qed.

Lemma good_step h db :
  well_keyed db ->
  (forall k p, Product.rows db !! k = Some p -> good p) ->
  forall k p, Product.rows (snd (api h db)) !! k = Some p -> good p.
Proof.
  intros Hwk Hall.
  apply (row_step_invariant good db (Product.rows (snd (api h db)))).
  - intros k1 b Hv. by apply created_good.
  - intros p ps b _ Hv. by eapply replaced_good.
  - apply toggled_good.
  - by apply api_rows.
  - exact Hall.
Qed.

(** C7, as stated, fails: a name made of spaces passes [notEmpty] on the
    create route and is stored. *)
Lemma blank_name_is_stored :
  ~ (forall db, reachable db ->
     forall k p, Product.rows db !! k = Some p ->
                 price_positive p /\ name_blank p = false).
Proof.
  intros H.
  destruct (H (snd (api (mkHttp POST [] blank) Product.empty))
              (reachable_step _ _ reachable_empty)
              1 (Product.mk 1 (JStr "   ") (JNum 5) (JBool true)) eq_refl)
    as [_ Hblank].
  discriminate Hblank.
Qed.

(** C7, amended: every product in a store the API can reach has a price
    that reads as a number above 0 and a name whose text is not empty (a
    name of white space only is accepted); every request, in particular
    every create and replace that passes its validation chain, keeps it
    so. *)
Theorem reachable_products_valid db :
  reachable db ->
  (forall k p, Product.rows db !! k = Some p ->
               price_positive p /\ name_nonempty p)
  /\ (forall h k p, Product.rows (snd (api h db)) !! k = Some p ->
                    price_positive p /\ name_nonempty p).
Proof.
  intros Hreach.
  assert (Hall : forall k p, Product.rows db !! k = Some p -> good p).
  { induction Hreach as [|h db Hreach IH].
    - intros k p. simpl. by rewrite lookup_empty.
    - apply good_step; [by apply reachable_well_keyed | done]. }
  split; [exact Hall|].
  intros h. apply good_step; [by apply reachable_well_keyed | done].
Qed.

Lemma reachable_products_valid_witness :
  let p := Product.mk 1 (JStr "Mouse") (JNum 50) (JBool true) in
  price_positive p /\ name_nonempty p.
Proof.
  intros p.
  destruct (reachable_products_valid
              (snd (api (mkHttp POST [] mouse) Product.empty))
              (reachable_step _ _ reachable_empty)) as [H _].
  exact (H 1 p eq_refl).
Defined.

(** * Further properties of the handlers, the rules and the routing table *)

(** ** Printing and reading keys *)

#[local] Arguments Validator.isNumeric : simpl nomatch.
#[local] Arguments Validator.isInt : simpl nomatch.

Lemma span_all p cs : forallb p cs = true -> span p cs = (cs, []).
Proof.
  induction cs as [|c cs IH]; simpl; [done|].
  intros [-> Hcs]%andb_true_iff. by rewrite IH.
Qed.

Lemma uint_digits d :
  forallb is_digit (chars (NilEmpty.string_of_uint d)) = true.
Proof. induction d; simpl; auto. Qed.

Lemma uint_value d acc :
  fold_left (fun a c => a * 10 + digit_value c)
    (chars (NilEmpty.string_of_uint d)) (Z.pos acc) =
  Z.pos (Pos.of_uint_acc d acc).
Proof.
  revert acc. induction d; intros acc; simpl; [done|..];
    rewrite <- IHd; f_equal; unfold digit_value; simpl; lia.
Qed.

Lemma uint_value_0 d :
  digits_value 10 (chars (NilEmpty.string_of_uint d)) = Z.of_N (Pos.of_uint d).
Proof.
  unfold digits_value. induction d; simpl; try done;
    match goal with
    | |- fold_left _ _ ?z = _ =>
        let z' := eval cbv in z in change z with z'
    end; by rewrite uint_value.
Qed.

Lemma to_uint_string p :
  NilZero.string_of_uint (Pos.to_uint p) = NilEmpty.string_of_uint (Pos.to_uint p).
Proof.
  pose proof (DecimalPos.Unsigned.to_uint_nonnil p).
  by destruct (Pos.to_uint p).
Qed.

Lemma uint_first_digit d :
  d <> Decimal.Nil ->
  exists c cs, chars (NilEmpty.string_of_uint d) = c :: cs /\ is_digit c = true.
Proof. destruct d; [done|..]; intros _; simpl; eauto. Qed.

Lemma strip_sign_digit c cs :
  is_digit c = true -> strip_sign (c :: cs) = (false, c :: cs).
Proof.
  destruct (strip_sign_cases (c :: cs)) as [(t & [= -> ->] & _) | [(t & [= -> ->] & _) | ->]];
    done.
Qed.

(** How an integer prints as a plain numeral: its digits, after a minus sign
    when negative. *)
Lemma plain_decimal_chars n :
  exists c cs,
    is_digit c = true /\ forallb is_digit cs = true
    /\ digits_value 10 (c :: cs) = Z.abs n
    /\ chars (plain_decimal n) =
       if n <? 0 then "-"%char :: c :: cs else c :: cs.
Proof.
  destruct n as [|p|p].
  - exists "0"%char, []. by repeat split.
  - unfold plain_decimal. simpl Z.to_int.
    unfold NilZero.string_of_int. rewrite to_uint_string.
    destruct (uint_first_digit (Pos.to_uint p)) as (c & cs & Hcs & Hc);
      [apply DecimalPos.Unsigned.to_uint_nonnil|].
    exists c, cs. pose proof (uint_digits (Pos.to_uint p)) as Hall.
    pose proof (uint_value_0 (Pos.to_uint p)) as Hval.
    rewrite Hcs in Hall, Hval. simpl in Hall. rewrite Hc in Hall.
    rewrite DecimalPos.Unsigned.of_to in Hval. unfold chars in *.
    by repeat split.
  - unfold plain_decimal. simpl Z.to_int.
    unfold NilZero.string_of_int. rewrite to_uint_string.
    destruct (uint_first_digit (Pos.to_uint p)) as (c & cs & Hcs & Hc);
      [apply DecimalPos.Unsigned.to_uint_nonnil|].
    exists c, cs. pose proof (uint_digits (Pos.to_uint p)) as Hall.
    pose proof (uint_value_0 (Pos.to_uint p)) as Hval.
    rewrite Hcs in Hall, Hval. simpl in Hall. rewrite Hc in Hall.
    rewrite DecimalPos.Unsigned.of_to in Hval. unfold chars in *.
    repeat split; try done. simpl. by rewrite Hcs.
Qed.

Lemma number_to_string_small n :
  Z.abs n < 10 ^ 21 -> number_to_string n = plain_decimal n.
Proof.
  intros Hn. unfold number_to_string.
  by destruct (Z.ltb_spec (Z.abs n) (10 ^ 21)); [|lia].
Qed.

Lemma strip_sign_minus cs : strip_sign ("-"%char :: cs) = (true, cs).
Proof. reflexivity. Qed.

Lemma isInt_number n :
  Z.abs n < 10 ^ 21 -> Validator.isInt (number_to_string n) = true.
Proof.
  intros Hsmall. rewrite number_to_string_small by done.
  destruct (plain_decimal_chars n) as (c & cs & Hc & Hcs & _ & Hn).
  assert (Hall : forallb is_digit (c :: cs) = true) by (simpl; by rewrite Hc, Hcs).
  unfold Validator.isInt. rewrite Hn.
  destruct (n <? 0); rewrite ?strip_sign_minus, ?strip_sign_digit by done;
    cbv beta iota; by rewrite Hall.
Qed.

Lemma isNumeric_number n :
  Z.abs n < 10 ^ 21 -> Validator.isNumeric (number_to_string n) = true.
Proof.
  intros Hsmall. rewrite number_to_string_small by done.
  destruct (plain_decimal_chars n) as (c & cs & Hc & Hcs & _ & Hn).
  assert (Hall : forallb is_digit (c :: cs) = true) by (simpl; by rewrite Hc, Hcs).
  unfold Validator.isNumeric. rewrite Hn.
  destruct (n <? 0); rewrite ?strip_sign_minus, ?strip_sign_digit by done;
    cbv beta iota; by rewrite (span_all _ _ Hall).
Qed.

(** The key a printed number denotes is the number. *)
Lemma key_of_number n :
  Z.abs n < 10 ^ 21 -> Storage.key_of_string (number_to_string n) = Some n.
Proof.
  intros Hsmall. pose proof (isInt_number n Hsmall) as Hint.
  rewrite (number_to_string_small n Hsmall) in *.
  unfold Storage.key_of_string. rewrite Hint.
  destruct (plain_decimal_chars n) as (c & cs & Hc & Hcs & Hval & Hn).
  rewrite Hn. destruct (Z.ltb_spec n 0);
    rewrite ?strip_sign_minus, ?strip_sign_digit by done;
    cbv beta iota; rewrite Hval; f_equal; lia.
Qed.

(** From 10^21 on a number prints with an exponent: the string has an [e]. *)
Lemma number_to_string_large n :
  10 ^ 21 <= Z.abs n -> In "e"%char (chars (number_to_string n)).
Proof.
  intros Hn. unfold number_to_string.
  destruct (Z.ltb_spec (Z.abs n) (10 ^ 21)); [lia|].
  unfold exponent_notation.
  destruct (plain_decimal_chars (Z.abs n)) as (c & cs & _ & _ & _ & Hcs).
  destruct (Z.ltb_spec (Z.abs n) 0); [lia|]. rewrite Hcs.
  unfold chars at 1. rewrite list_ascii_of_string_of_list_ascii.
  apply in_or_app. right. right. apply in_or_app. right. by left.
Qed.

Lemma isNumeric_large n :
  10 ^ 21 <= Z.abs n -> Validator.isNumeric (number_to_string n) = false.
Proof.
  intros Hn. destruct (Validator.isNumeric _) eqn:Hnum; [|done].
  apply isNumeric_chars in Hnum. rewrite forallb_forall in Hnum.
  by apply number_to_string_large, Hnum in Hn.
Qed.

Lemma number_to_string_nonempty n : number_to_string n <> "".
Proof.
  destruct (Z.lt_ge_cases (Z.abs n) (10 ^ 21)) as [Hn|Hn].
  - apply isNumeric_nonempty. by apply isNumeric_number.
  - apply number_to_string_large in Hn. intros Heq. by rewrite Heq in Hn.
Qed.

Lemma guarded_outcome rules h ps b db :
  (violations rules (mkRequest ps b []) = [] ->
   forall ctx, outcome db (Some (fst (h (mkRequest ps b ctx) db)))
                 (snd (h (mkRequest ps b ctx) db))) ->
  outcome db
    (fst (run_middlewares (guarded rules h) (mkRequest ps b []) db))
    (snd (run_middlewares (guarded rules h) (mkRequest ps b []) db)).
Proof.
  intros Hrun. rewrite run_guarded. cbv zeta.
  destruct (violations rules _) eqn:Hv; simpl; [by apply Hrun|].
  by apply out_rejected.
Qed.

Lemma api_outcome h db :
  well_keyed db -> outcome db (fst (api h db)) (snd (api h db)).
Proof.
  intros Hwk. destruct h as [m [|s [|s' rest]] b].
  - destruct m; try exact (out_unrouted db).
    + exact (out_list db _).
    + rewrite api_post. cbv zeta.
      destruct (violations Rules.post _) eqn:Hv; simpl; [|by apply out_rejected].
      rewrite createProduct_run.
      destruct (create_key _ _); simpl; [apply out_created | apply out_silent].
  - destruct (decide (String.length s = 0%nat)) as [Hs|Hs].
    { destruct s; [|done]. destruct m; exact (out_unrouted db). }
    rewrite api_with_id by done.
    destruct m; try exact (out_unrouted db);
      apply guarded_outcome; intros _ ctx;
      set (req := mkRequest {["id" := s]} b ctx);
      destruct (lookup_row (params req !! "id") db) as [p|] eqn:Hp.
    + rewrite getProductById_run, Hp. apply out_found.
      by eapply lookup_row_well_keyed.
    + rewrite getProductById_run, Hp. apply out_missing.
    + pose proof (lookup_row_well_keyed _ _ _ Hwk Hp) as Hrow.
      rewrite (updateProduct_found _ _ _ Hp Hrow). by apply out_replaced.
    + rewrite updateProduct_missing by done. apply out_missing.
    + pose proof (lookup_row_well_keyed _ _ _ Hwk Hp) as Hrow.
      rewrite (updateAvailability_found _ _ _ Hp Hrow). by apply out_toggled.
    + rewrite updateAvailability_missing by done. apply out_missing.
    + rewrite (deleteProduct_found _ _ _ Hp). apply out_deleted.
      by eapply lookup_row_well_keyed.
    + rewrite deleteProduct_missing by done. apply out_missing.
  - destruct m; exact (out_unrouted db).
Qed.

(** ** The shapes of the answers *)

(** X1: in a store the API can reach, every answer has one of four
    statuses, each with its own body: 400 with a non-empty [errores] list,
    404 with [error: "Producto no encontrado"], 201 with a product as [data],
    200 with a product, a list of products or ["Producto eliminado"] as
    [data]. *)
Theorem answer_shapes h db res :
  reachable db ->
  fst (api h db) = Some res ->
  (status res = 400 /\ exists es, json res = Errores es /\ es <> [])
  \/ (status res = 404 /\ json res = Error "Producto no encontrado")
  \/ (status res = 201 /\ exists p, json res = Data p)
  \/ (status res = 200
      /\ ((exists p, json res = Data p)
          \/ (exists l, json res = DataList l)
          \/ json res = DataString "Producto eliminado")).
Proof.
  intros Hreach Hres.
  pose proof (api_outcome h db (reachable_well_keyed _ Hreach)) as Hout.
  rewrite Hres in Hout.
  inversion Hout; subst; simpl; eauto 10.
Qed.

Lemma answer_shapes_witness :
  let res := mkResponse 201 (Data (created 1 mouse)) in
  (status res = 400 /\ exists es, json res = Errores es /\ es <> [])
  \/ (status res = 404 /\ json res = Error "Producto no encontrado")
  \/ (status res = 201 /\ exists p, json res = Data p)
  \/ (status res = 200
      /\ ((exists p, json res = Data p)
          \/ (exists l, json res = DataList l)
          \/ json res = DataString "Producto eliminado")).
Proof.
  exact (answer_shapes (mkHttp POST [] mouse) Product.empty _
           reachable_empty eq_refl).
Defined.

(** X2: a request answered 400 has made no storage call and left the store
    exactly as it was, and a request answered 404 has only read by key:
    rows and key counter are unchanged. *)
Theorem refused_requests_change_nothing h db res :
  reachable db ->
  fst (api h db) = Some res ->
  (status res = 400 -> snd (api h db) = db)
  /\ (status res = 404 ->
      exists key, snd (api h db) = logged (Product.FindByPk key) db).
Proof.
  intros Hreach Hres.
  pose proof (api_outcome h db (reachable_well_keyed _ Hreach)) as Hout.
  rewrite Hres in Hout. remember (snd (api h db)) as db' eqn:Hdb'. clear Hdb'.
  inversion Hout; subst; simpl; split; intros Hst; try discriminate Hst; eauto.
Qed.

Lemma refused_requests_change_nothing_witness :
  snd (api (mkHttp DELETE ["x"] ∅) Product.empty) = Product.empty.
Proof.
  destruct (refused_requests_change_nothing (mkHttp DELETE ["x"] ∅)
              Product.empty
              (mkResponse 400
                 (Errores [mkError LParams "id" (JStr "x") "ID no valido"]))
              reachable_empty eq_refl) as [H _].
  exact (H eq_refl).
Defined.

(** ** Well-typed fields *)

Lemma gt_zero_number n : gt_zero (JNum n) = (0 <? n).
Proof.
  unfold gt_zero, number_gt_zero, ToNumber, Qltb, Qle_bool, underflow_bound.
  cbn [Qnum Qden inject_Z].
  set (B := Z.pos (2 ^ 1075)).
  assert (HB : 1 < B) by (subst B; vm_compute; reflexivity).
  clearbody B.
  destruct (Z.ltb_spec 0 n), (Z.leb_spec (n * B) (1 * 1)); simpl; try done; nia.
Qed.

Lemma id_errors_valid s : Validator.isInt s = true -> id_errors (JStr s) = [].
Proof. unfold id_errors. change (toString (JStr s)) with s. by intros ->. Qed.

Lemma name_errors_text nm : nm <> "" -> name_errors (JStr nm) = [].
Proof. unfold name_errors. change (toString (JStr nm)) with nm. by destruct nm. Qed.

Lemma price_errors_number n :
  Z.abs n < 10 ^ 21 ->
  price_errors (JNum n) =
  when (negb (0 <? n)) (mkError LBody "price" (JNum n) "Precio no valido").
Proof.
  intros Hn. unfold price_errors. rewrite gt_zero_number.
  change (toString (JNum n)) with (number_to_string n).
  rewrite isNumeric_number by done.
  pose proof (number_to_string_nonempty n) as Hne.
  unfold Validator.isEmpty. by destruct (number_to_string n).
Qed.

Lemma price_errors_large n :
  10 ^ 21 <= Z.abs n ->
  price_errors (JNum n) =
  mkError LBody "price" (JNum n) "Valor no valido"
  :: when (negb (0 <? n)) (mkError LBody "price" (JNum n) "Precio no valido").
Proof.
  intros Hn. unfold price_errors. rewrite gt_zero_number.
  change (toString (JNum n)) with (number_to_string n).
  rewrite isNumeric_large by done.
  pose proof (number_to_string_nonempty n) as Hne.
  unfold Validator.isEmpty. by destruct (number_to_string n).
Qed.

Lemma availability_errors_bool a : availability_errors (JBool a) = [].
Proof. by destruct a. Qed.

(** ** Routes with an id: what the gate lets through *)

Lemma api_put_valid s b db :
  String.length s <> 0%nat ->
  violations Rules.put (mkRequest {[ "id" := s ]} b []) = [] ->
  exists ctx,
    api (mkHttp PUT [s] b) db =
    (Some (fst (updateProduct (mkRequest {[ "id" := s ]} b ctx) db)),
     snd (updateProduct (mkRequest {[ "id" := s ]} b ctx) db)).
Proof.
  intros Hs Hv. rewrite api_with_id by done. rewrite run_guarded. cbv zeta.
  rewrite Hv. simpl. eauto.
Qed.

Lemma id_param_singleton s b ctx :
  id_param (mkRequest {[ "id" := s ]} b ctx) = JStr s.
Proof. unfold id_param. simpl. by rewrite lookup_singleton_eq. Qed.

(** ** An id that is not an integer *)

(** X3: on the four routes with an id, an id that is not an integer numeral
    is answered 400 and nothing is read or written.  The first entry is
    ["ID no valido"]; it is the only one on get-by-id, toggle and delete,
    and on replace the entries of the body follow it. *)
Theorem invalid_id_answers_400 m s b db :
  m <> POST ->
  String.length s <> 0%nat ->
  Validator.isInt s = false ->
  api (mkHttp m [s] b) db =
  (Some (mkResponse 400 (Errores
     (mkError LParams "id" (JStr s) "ID no valido"
      :: match m with
         | PUT =>
             violations [Rules.put_name; Rules.put_price; Rules.put_availability]
               (mkRequest {[ "id" := s ]} b [])
         | _ => []
         end))), db).
Proof.
  intros Hm Hlen Hs. destruct m; try done;
    try (apply api_id_invalid; auto).
  rewrite api_with_id by done. rewrite run_guarded. cbv zeta.
  unfold Rules.put. rewrite violations_cons, run_put_id, id_param_singleton.
  unfold id_errors. change (toString (JStr s)) with s. rewrite Hs. reflexivity.
Qed.

Lemma invalid_id_answers_400_witness :
  api (mkHttp PUT ["not-valid-url"] ∅) Product.empty =
  (Some (mkResponse 400 (Errores
     [ mkError LParams "id" (JStr "not-valid-url") "ID no valido";
       mkError LBody "name" JUndefined "El nombre del producto no puede ir vacio";
       mkError LBody "price" JUndefined "Valor no valido";
       mkError LBody "price" JUndefined "El precio del producto no puede ir vacio";
       mkError LBody "price" JUndefined "Precio no valido";
       mkError LBody "availability" JUndefined
         "Debes de actualizar el estado del producto" ])), Product.empty).
Proof.
  exact (invalid_id_answers_400 PUT "not-valid-url" ∅ Product.empty
           ltac:(discriminate) ltac:(discriminate) eq_refl).
Defined.

(** ** Reading one product *)

Lemma lookup_row_id s b ctx db :
  lookup_row (params (mkRequest {[ "id" := s ]} b ctx) !! "id") db =
  match Storage.key_of_string s with
  | Some k => Product.rows db !! k
  | None => None
  end.
Proof. simpl. by rewrite lookup_singleton_eq, lookup_row_Some. Qed.

Lemma get_by_id_found_run s k p b db :
  Storage.key_of_string s = Some k ->
  Product.rows db !! k = Some p ->
  api (mkHttp GET [s] b) db =
  (Some (mkResponse 200 (Data p)),
   Product.mkDb (Product.rows db) (Product.next_id db)
     (Product.calls db ++ [Product.FindByPk (Some s)])).
Proof.
  intros Hk Hp. rewrite api_id_route by (eauto using key_of_string_isInt).
  cbv zeta. rewrite getProductById_run, lookup_row_id, Hk, Hp. simpl.
  by rewrite lookup_singleton_eq.
Qed.

(** X4: get-by-id on the key of a stored row answers 200 with that row as
    [data]; it only reads: rows and key counter stay as they were. *)
Theorem get_by_id_returns_row s k p b db :
  Storage.key_of_string s = Some k ->
  Product.rows db !! k = Some p ->
  api (mkHttp GET [s] b) db =
  (Some (mkResponse 200 (Data p)),
   Product.mkDb (Product.rows db) (Product.next_id db)
     (Product.calls db ++ [Product.FindByPk (Some s)])).
Proof. apply get_by_id_found_run. Qed.

Lemma get_by_id_returns_row_witness :
  fst (api (mkHttp GET ["1"] ∅) (snd (api (mkHttp POST [] mouse) Product.empty))) =
  Some (mkResponse 200 (Data (created 1 mouse))).
Proof.
  by rewrite (get_by_id_returns_row "1" 1 (created 1 mouse) ∅
                (snd (api (mkHttp POST [] mouse) Product.empty)) eq_refl eq_refl).
Defined.

(** X5: through the table, a request on an integer id that has no row is
    answered 404 with [error: "Producto no encontrado"] on get-by-id, toggle
    and delete whatever the body, and on replace when the body passes the
    rules; the rows stay as they were. *)
Theorem missing_id_answers_404 m s k b db :
  m <> POST ->
  Storage.key_of_string s = Some k ->
  Product.rows db !! k = None ->
  (m = PUT ->
   violations [Rules.put_name; Rules.put_price; Rules.put_availability]
     (mkRequest {[ "id" := s ]} b []) = []) ->
  api (mkHttp m [s] b) db =
  (Some (mkResponse 404 (Error "Producto no encontrado")),
   Product.mkDb (Product.rows db) (Product.next_id db)
     (Product.calls db ++ [Product.FindByPk (Some s)])).
Proof.
  intros Hm Hk Hrow Hbody.
  pose proof (key_of_string_isInt _ _ Hk) as Hs.
  assert (Hmiss : forall ctx,
    lookup_row (params (mkRequest {[ "id" := s ]} b ctx) !! "id") db = None).
  { intros ctx. by rewrite lookup_row_id, Hk. }
  destruct m; try done.
  - rewrite api_id_route by auto. cbv zeta.
    rewrite getProductById_run, Hmiss. simpl. by rewrite lookup_singleton_eq.
  - destruct (api_put_valid s b db) as [ctx ->].
    { by apply isInt_nonempty. }
    { unfold Rules.put. rewrite violations_cons, run_put_id, id_param_singleton.
      rewrite id_errors_valid by done. by apply Hbody. }
    rewrite updateProduct_missing by done. simpl. by rewrite lookup_singleton_eq.
  - rewrite api_id_route by auto. cbv zeta.
    rewrite updateAvailability_missing by done. simpl.
    by rewrite lookup_singleton_eq.
  - rewrite api_id_route by auto. cbv zeta.
    rewrite deleteProduct_missing by done. simpl. by rewrite lookup_singleton_eq.
Qed.

Lemma missing_id_answers_404_witness :
  api (mkHttp PUT ["2000"] (Suite.monitor 300 true)) Product.empty =
  (Some (mkResponse 404 (Error "Producto no encontrado")),
   Product.mkDb ∅ 1 [Product.FindByPk (Some "2000")]).
Proof.
  exact (missing_id_answers_404 PUT "2000" 2000 (Suite.monitor 300 true)
           Product.empty ltac:(discriminate) eq_refl eq_refl (fun _ => eq_refl)).
Defined.

(** ** Replacing *)

Lemma violations_put_typed s b nm pr av :
  Validator.isInt s = true ->
  b !! "name" = Some (JStr nm) -> nm <> "" ->
  b !! "price" = Some (JNum pr) -> 0 < pr -> pr < 10 ^ 21 ->
  b !! "availability" = Some (JBool av) ->
  violations Rules.put (mkRequest {[ "id" := s ]} b []) = [].
Proof.
  intros Hs Hn Hnm Hp Hpr Hbound Ha. rewrite violations_put, id_param_singleton.
  unfold body_field. simpl. rewrite Hn, Hp, Ha. simpl.
  rewrite id_errors_valid, name_errors_text, price_errors_number,
    availability_errors_bool by (done || lia).
  by destruct (Z.ltb_spec 0 pr); [|lia].
Qed.

Lemma put_typed_run s k p b nm pr av db :
  reachable db ->
  Storage.key_of_string s = Some k ->
  Product.rows db !! k = Some p ->
  b !! "name" = Some (JStr nm) -> nm <> "" ->
  b !! "price" = Some (JNum pr) -> 0 < pr -> pr < 10 ^ 21 ->
  b !! "availability" = Some (JBool av) ->
  let data := Product.mk k (JStr nm) (JNum pr) (JBool av) in
  api (mkHttp PUT [s] b) db =
  (Some (mkResponse 200 (Data data)),
   Product.mkDb (<[k := data]> (Product.rows db)) (Product.next_id db)
     (Product.calls db ++
        [Product.FindByPk (Some s); Product.Update k b; Product.Save k])).
Proof.
  intros Hreach Hk Hrow Hn Hnm Hp Hpr Hbound Ha data.
  pose proof (key_of_string_isInt _ _ Hk) as Hs.
  pose proof (reachable_well_keyed _ Hreach _ _ Hrow) as Hid.
  destruct (api_put_valid s b db) as [ctx ->].
  { by apply isInt_nonempty. }
  { by eapply violations_put_typed. }
  rewrite (updateProduct_found _ db p); [|by rewrite lookup_row_id, Hk|by rewrite Hid].
  simpl. rewrite lookup_singleton_eq, Hid. unfold replaced. simpl.
  by rewrite Hn, Hp, Ha, Hid.
Qed.

(** X6: a replace on the key of a stored row, with a text name that is not
    empty, a number price above 0 and below 10^21 and a boolean
    availability, is answered 200 with the row that keeps the id and takes
    the three fields from the body; that row replaces the stored one and no
    other row changes. *)
Theorem replace_overwrites_row s k p b nm pr av db :
  reachable db ->
  Storage.key_of_string s = Some k ->
  Product.rows db !! k = Some p ->
  b !! "name" = Some (JStr nm) -> nm <> "" ->
  b !! "price" = Some (JNum pr) -> 0 < pr -> pr < 10 ^ 21 ->
  b !! "availability" = Some (JBool av) ->
  let data := Product.mk k (JStr nm) (JNum pr) (JBool av) in
  api (mkHttp PUT [s] b) db =
  (Some (mkResponse 200 (Data data)),
   Product.mkDb (<[k := data]> (Product.rows db)) (Product.next_id db)
     (Product.calls db ++
        [Product.FindByPk (Some s); Product.Update k b; Product.Save k])).
Proof. apply put_typed_run. Qed.

Lemma replace_overwrites_row_witness :
  fst (api (mkHttp PUT ["1"] (Suite.monitor 300 true))
         (snd (api (mkHttp POST [] mouse) Product.empty))) =
  Some (mkResponse 200
          (Data (Product.mk 1 (JStr "Monitor Curvo --actualizado") (JNum 300)
                   (JBool true)))).
Proof.
  rewrite (replace_overwrites_row "1" 1 (created 1 mouse)
             (Suite.monitor 300 true) "Monitor Curvo --actualizado" 300 true
             (snd (api (mkHttp POST [] mouse) Product.empty)));
    try reflexivity; try discriminate; try lia.
  apply reachable_step, reachable_empty.
Defined.

(** ** Replacing twice, and what replace keeps of the old row *)

Lemma replaced_twice p b : replaced (replaced p b) b = replaced p b.
Proof.
  unfold replaced. simpl.
  by destruct (b !! "name"), (b !! "price"), (b !! "availability").
Qed.

Lemma put_cases s b db :
  reachable db ->
  String.length s <> 0%nat ->
  let req := mkRequest {[ "id" := s ]} b [] in
  match violations Rules.put req with
  | [] =>
      match lookup_row (Some s) db with
      | Some p =>
          Product.rows db !! Product.id p = Some p
          /\ api (mkHttp PUT [s] b) db =
             (Some (mkResponse 200 (Data (replaced p b))),
              Product.mkDb (<[Product.id p := replaced p b]> (Product.rows db))
                (Product.next_id db)
                (Product.calls db ++
                   [Product.FindByPk (Some s); Product.Update (Product.id p) b;
                    Product.Save (Product.id p)]))
      | None =>
          api (mkHttp PUT [s] b) db =
          (Some not_found, logged (Product.FindByPk (Some s)) db)
      end
  | es => api (mkHttp PUT [s] b) db = (Some (mkResponse 400 (Errores es)), db)
  end.
Proof.
  intros Hreach Hs req.
  destruct (violations Rules.put req) as [|e es] eqn:Hv.
  - destruct (api_put_valid s b db Hs Hv) as [ctx ->].
    assert (Hkey : params (mkRequest {["id" := s]} b ctx) !! "id" = Some s).
    { simpl. apply lookup_singleton_eq. }
    destruct (lookup_row (Some s) db) as [p|] eqn:Hp.
    + assert (Hrow : Product.rows db !! Product.id p = Some p).
      { eapply lookup_row_well_keyed; [by apply reachable_well_keyed|done]. }
      split; [done|].
      rewrite (updateProduct_found _ db p) by by rewrite ?Hkey.
      by rewrite Hkey.
    + rewrite updateProduct_missing by by rewrite Hkey.
      by rewrite Hkey.
  - rewrite api_with_id by done. rewrite run_guarded. cbv zeta.
    fold req. by rewrite Hv.
Qed.

(** X7: replace is idempotent.  Whatever the id and the body, sending the
    same replace a second time gets the answer of the first (200, 400 or
    404 alike) and leaves the rows as the first left them. *)
Theorem replace_is_idempotent s b db :
  reachable db ->
  let once := api (mkHttp PUT [s] b) db in
  let twice := api (mkHttp PUT [s] b) (snd once) in
  fst twice = fst once /\ Product.rows (snd twice) = Product.rows (snd once).
Proof.
  intros Hreach once twice.
  assert (Hreach' : reachable (snd once)) by by apply reachable_step.
  destruct (decide (String.length s = 0%nat)) as [Hs|Hs].
  { destruct s; [|done]. done. }
  pose proof (put_cases s b db Hreach Hs) as H1.
  pose proof (put_cases s b (snd once) Hreach' Hs) as H2.
  cbv zeta in H1, H2. fold twice in H2. fold once in H1.
  destruct (violations Rules.put _) as [|e es].
  - destruct (lookup_row (Some s) db) as [p|] eqn:Hp.
    + destruct H1 as [Hrow H1]. rewrite H1 in H2 |- *. simpl in *.
      rewrite lookup_row_Some in Hp, H2.
      destruct (Storage.key_of_string s) as [k|]; [|done].
      pose proof (reachable_well_keyed _ Hreach _ _ Hp) as Hid.
      simpl in H2. rewrite Hid, lookup_insert_eq in H2.
      destruct H2 as [_ H2]. rewrite H2. simpl.
      rewrite replaced_twice. split; [done|].
      rewrite Hid. apply insert_insert_eq.
    + rewrite H1 in H2 |- *. simpl in *.
      rewrite lookup_row_Some in Hp, H2. simpl in H2. rewrite Hp in H2.
      by rewrite H2.
  - rewrite H1 in H2 |- *. simpl in *. by rewrite H2.
Qed.

Lemma replace_is_idempotent_witness :
  let db := snd (api (mkHttp POST [] mouse) Product.empty) in
  let once := api (mkHttp PUT ["1"] (Suite.monitor 300 true)) db in
  let twice := api (mkHttp PUT ["1"] (Suite.monitor 300 true)) (snd once) in
  fst twice = fst once /\ Product.rows (snd twice) = Product.rows (snd once).
Proof.
  exact (replace_is_idempotent "1" (Suite.monitor 300 true)
           (snd (api (mkHttp POST [] mouse) Product.empty))
           (reachable_step _ _ reachable_empty)).
Defined.

(** ** Toggling twice *)

Lemma patch_found_run s k p b db :
  reachable db ->
  Storage.key_of_string s = Some k ->
  Product.rows db !! k = Some p ->
  api (mkHttp PATCH [s] b) db =
  (Some (mkResponse 200 (Data (toggled p))),
   Product.mkDb (<[k := toggled p]> (Product.rows db)) (Product.next_id db)
     (Product.calls db ++ [Product.FindByPk (Some s); Product.Save k])).
Proof.
  intros Hreach Hk Hp.
  pose proof (reachable_well_keyed _ Hreach _ _ Hp) as Hid.
  rewrite api_id_route by (eauto using key_of_string_isInt). cbv zeta.
  rewrite (updateAvailability_found _ db p);
    [|by rewrite lookup_row_id, Hk|by rewrite Hid].
  simpl. by rewrite lookup_singleton_eq, Hid.
Qed.

(** X8: toggling the availability of a row twice gives back the row, when
    its availability is a boolean: the second answer carries the original
    row and the rows are as before the two requests. *)
Theorem toggle_twice_restores s k p av b b' db :
  reachable db ->
  Storage.key_of_string s = Some k ->
  Product.rows db !! k = Some p ->
  Product.availability p = JBool av ->
  let once := api (mkHttp PATCH [s] b) db in
  let twice := api (mkHttp PATCH [s] b') (snd once) in
  fst twice = Some (mkResponse 200 (Data p))
  /\ Product.rows (snd twice) = Product.rows db.
Proof.
  intros Hreach Hk Hrow Hav once twice.
  assert (Hreach' : reachable (snd once)) by by apply reachable_step.
  subst twice. subst once.
  rewrite (patch_found_run s k p b db) in * by done. simpl snd in *.
  rewrite (patch_found_run s k (toggled p) b') by (done || apply lookup_insert_eq).
  simpl.
  assert (Hback : toggled (toggled p) = p).
  { destruct p as [i n pr a]. simpl in *. subst a. unfold toggled. simpl.
    by rewrite negb_involutive. }
  rewrite Hback. split; [done|].
  rewrite insert_insert_eq. by apply insert_id.
Qed.

Lemma toggle_twice_restores_witness :
  let db := snd (api (mkHttp POST [] mouse) Product.empty) in
  let once := api (mkHttp PATCH ["1"] ∅) db in
  let twice := api (mkHttp PATCH ["1"] ∅) (snd once) in
  fst twice = Some (mkResponse 200 (Data (created 1 mouse)))
  /\ Product.rows (snd twice) = Product.rows db.
Proof.
  exact (toggle_twice_restores "1" 1 (created 1 mouse) true ∅ ∅
           (snd (api (mkHttp POST [] mouse) Product.empty))
           (reachable_step _ _ reachable_empty) eq_refl eq_refl eq_refl).
Defined.

(** ** Creating, then reading *)

Lemma post_valid_run b db :
  violations Rules.post (mkRequest ∅ b []) = [] ->
  api (mkHttp POST [] b) db =
  match create_key b db with
  | Some k =>
      (Some (mkResponse 201 (Data (created k b))),
       Product.mkDb (<[k := created k b]> (Product.rows db))
         (next_after_create b db) (Product.calls db ++ [Product.Create b]))
  | None =>
      (None,
       Product.mkDb (Product.rows db) (next_after_create b db)
         (Product.calls db ++ [Product.Create b]))
  end.
Proof.
  intros Hv. rewrite api_post. cbv zeta. rewrite Hv. simpl.
  by rewrite createProduct_run.
Qed.

Lemma create_key_in_range b db k :
  create_key b db = Some k -> -2147483648 <= k <= 2147483647.
Proof.
  unfold create_key, Storage.key_usable, Product.id_in_range.
  destruct (Storage.requested_key b db) as [k'|]; [|done].
  destruct (_ && _) eqn:Hok; [|done]. intros [= <-].
  apply andb_true_iff in Hok as [Hok _]. apply andb_true_iff in Hok. lia.
Qed.

(** X9: the id a create answers with addresses the created product: a
    get-by-id on that id, printed as a decimal numeral, right after the
    create is answered 200 with the same product. *)
Theorem created_product_can_be_read b b' db product db1 :
  api (mkHttp POST [] b) db = (Some (mkResponse 201 (Data product)), db1) ->
  fst (api (mkHttp GET [number_to_string (Product.id product)] b') db1) =
  Some (mkResponse 200 (Data product)).
Proof.
  intros Hpost.
  destruct (violations Rules.post (mkRequest ∅ b [])) as [|e es] eqn:Hv.
  - rewrite post_valid_run in Hpost by done.
    destruct (create_key b db) as [k|] eqn:Hk; [|discriminate Hpost].
    injection Hpost as <- <-.
    pose proof (create_key_in_range _ _ _ Hk) as Hrange.
    rewrite (get_by_id_found_run _ k (created k b)); [done| |].
    + apply key_of_number. simpl. lia.
    + simpl. apply lookup_insert_eq.
  - rewrite api_post in Hpost. cbv zeta in Hpost.
    rewrite Hv in Hpost. discriminate Hpost.
Qed.

Lemma created_product_can_be_read_witness :
  fst (api (mkHttp GET ["1"] ∅) (snd (api (mkHttp POST [] mouse) Product.empty))) =
  Some (mkResponse 200 (Data (created 1 mouse))).
Proof.
  exact (created_product_can_be_read mouse ∅ Product.empty (created 1 mouse)
           (snd (api (mkHttp POST [] mouse) Product.empty)) eq_refl).
Defined.

(** ** Deleting *)

(** X10: a delete on the key of a stored row is answered 200 with
    ["Producto eliminado"]; it removes that row and no other, and leaves the
    key counter as it was. *)
Theorem delete_removes_only_that_row s k p b db :
  reachable db ->
  Storage.key_of_string s = Some k ->
  Product.rows db !! k = Some p ->
  api (mkHttp DELETE [s] b) db =
    (Some (mkResponse 200 (DataString "Producto eliminado")),
     Product.mkDb (delete k (Product.rows db)) (Product.next_id db)
       (Product.calls db ++ [Product.FindByPk (Some s); Product.Destroy k]))
  /\ (forall k', k' <> k ->
      Product.rows (snd (api (mkHttp DELETE [s] b) db)) !! k' =
      Product.rows db !! k').
Proof.
  intros Hreach Hk Hrow.
  pose proof (reachable_well_keyed _ Hreach _ _ Hrow) as Hid.
  assert (Hrun : api (mkHttp DELETE [s] b) db =
    (Some (mkResponse 200 (DataString "Producto eliminado")),
     Product.mkDb (delete k (Product.rows db)) (Product.next_id db)
       (Product.calls db ++ [Product.FindByPk (Some s); Product.Destroy k]))).
  { rewrite api_id_route by (eauto using key_of_string_isInt). cbv zeta.
    rewrite (deleteProduct_found _ db p) by by rewrite lookup_row_id, Hk.
    simpl. by rewrite lookup_singleton_eq, Hid. }
  split; [done|]. intros k' Hne. rewrite Hrun. simpl.
  by apply lookup_delete_ne.
Qed.

Lemma delete_removes_only_that_row_witness :
  fst (api (mkHttp DELETE ["1"] ∅) (snd (api (mkHttp POST [] mouse) Product.empty))) =
  Some (mkResponse 200 (DataString "Producto eliminado")).
Proof.
  destruct (delete_removes_only_that_row "1" 1 (created 1 mouse) ∅
           (snd (api (mkHttp POST [] mouse) Product.empty))
           (reachable_step _ _ reachable_empty) eq_refl eq_refl) as [H _].
  by rewrite H.
Defined.

(** ** Reading *)

Lemma get_only_reads path b db :
  let db' := snd (api (mkHttp GET path b) db) in
  Product.rows db' = Product.rows db
  /\ Product.next_id db' = Product.next_id db
  /\ exists new,
       Product.calls db' = Product.calls db ++ new
       /\ forallb (fun c => negb (Product.mutating c)) new = true.
Proof.
  cbv zeta. destruct path as [|s [|s' rest]].
  - repeat split. by exists [Product.FindAll].
  - destruct (decide (String.length s = 0%nat)) as [Hs|Hs].
    { destruct s; [|done]. repeat split. exists []. by rewrite app_nil_r. }
    rewrite api_with_id by done. rewrite run_guarded. cbv zeta.
    destruct (violations Rules.get_by_id _); simpl.
    + rewrite getProductById_run. repeat split. by eexists [_].
    + repeat split. exists []. by rewrite app_nil_r.
  - repeat split. exists []. by rewrite app_nil_r.
Qed.

(** X12: a GET request only reads: whatever its path and body, the rows
    and the key counter are unchanged and no mutating storage call is
    made. *)
Theorem get_requests_only_read path b db :
  let db' := snd (api (mkHttp GET path b) db) in
  Product.rows db' = Product.rows db
  /\ Product.next_id db' = Product.next_id db
  /\ exists new,
       Product.calls db' = Product.calls db ++ new
       /\ forallb (fun c => negb (Product.mutating c)) new = true.
Proof. apply get_only_reads. Qed.

(** ** The price rules on typed prices *)

Lemma price_errors_integer n :
  price_errors (JNum n) =
  (if Z.abs n <? 10 ^ 21 then []
   else [mkError LBody "price" (JNum n) "Valor no valido"])
  ++ (if 0 <? n then []
      else [mkError LBody "price" (JNum n) "Precio no valido"]).
Proof.
  destruct (Z.ltb_spec (Z.abs n) (10 ^ 21)).
  - rewrite price_errors_number by done. by destruct (0 <? n).
  - rewrite price_errors_large by done. by destruct (0 <? n).
Qed.

(** X14: with a text name that is not empty, a price given as an integer
    number is judged by its size alone.  Above 0 and below 10^21 it passes
    the rules; from 10^21 on it prints with an exponent and is reported
    with ["Valor no valido"]; at 0 or below it is reported with
    ["Precio no valido"], after ["Valor no valido"] when it is -10^21 or
    below.  A create, and a replace with an integer id and a boolean
    availability, report exactly these entries and are answered 400 with
    them when there are any. *)
Theorem integer_price_decides b nm n db :
  b !! "name" = Some (JStr nm) -> nm <> "" ->
  b !! "price" = Some (JNum n) ->
  let entries :=
    (if Z.abs n <? 10 ^ 21 then []
     else [mkError LBody "price" (JNum n) "Valor no valido"])
    ++ (if 0 <? n then []
        else [mkError LBody "price" (JNum n) "Precio no valido"]) in
  violations Rules.post (mkRequest ∅ b []) = entries
  /\ (entries <> [] ->
      api (mkHttp POST [] b) db = (Some (mkResponse 400 (Errores entries)), db))
  /\ (forall s av,
        Validator.isInt s = true ->
        b !! "availability" = Some (JBool av) ->
        violations Rules.put (mkRequest {[ "id" := s ]} b []) = entries
        /\ (entries <> [] ->
            api (mkHttp PUT [s] b) db =
              (Some (mkResponse 400 (Errores entries)), db))).
Proof.
  intros Hn Hnm Hp entries.
  assert (Hpost : violations Rules.post (mkRequest ∅ b []) = entries).
  { rewrite violations_post. unfold body_field. simpl. rewrite Hn, Hp. simpl.
    by rewrite name_errors_text, price_errors_integer. }
  split; [done|]. split.
  - intros Hne. rewrite api_post. cbv zeta. rewrite Hpost.
    by destruct entries.
  - intros s av Hs Ha.
    assert (Hput : violations Rules.put (mkRequest {[ "id" := s ]} b []) = entries).
    { rewrite violations_put, id_param_singleton. unfold body_field. simpl.
      rewrite Hn, Hp, Ha. simpl.
      rewrite id_errors_valid, name_errors_text, price_errors_integer,
        availability_errors_bool by done.
      by rewrite app_nil_r. }
    split; [done|]. intros Hne.
    rewrite api_with_id by by apply isInt_nonempty.
    rewrite run_guarded. cbv zeta. rewrite Hput. by destruct entries.
Qed.

Lemma integer_price_decides_witness :
  api (mkHttp POST [] (Suite.playstation (JNum 0))) Product.empty =
  (Some (mkResponse 400
           (Errores [mkError LBody "price" (JNum 0) "Precio no valido"])),
   Product.empty).
Proof.
  destruct (integer_price_decides (Suite.playstation (JNum 0))
              "Play station 5 ---prueba" 0 Product.empty)
    as (_ & H & _).
  - reflexivity.
  - discriminate.
  - reflexivity.
  - apply H. discriminate.
Defined.

Lemma isEmpty_true s : Validator.isEmpty s = true -> s = "".
Proof. by destruct s. Qed.

(** X15: a price that is absent, null or the empty string fails all three
    price checks at once, on create and on replace alike: the "empty price"
    entry never comes without the other two. *)
Theorem empty_price_fails_every_check req :
  let v := default JUndefined (body_of req !! "price") in
  Validator.isEmpty (toString v) = true ->
  let entries :=
    [ mkError LBody "price" v "Valor no valido";
      mkError LBody "price" v "El precio del producto no puede ir vacio";
      mkError LBody "price" v "Precio no valido" ] in
  run_chain Rules.post_price req = entries
  /\ run_chain Rules.put_price req = entries.
Proof.
  intros v Hempty entries. rewrite run_post_price, run_put_price.
  unfold body_field. fold v. subst entries.
  assert (price_errors v =
    [ mkError LBody "price" v "Valor no valido";
      mkError LBody "price" v "El precio del producto no puede ir vacio";
      mkError LBody "price" v "Precio no valido" ]) as ->; [|done].
  unfold price_errors. rewrite Hempty. apply isEmpty_true in Hempty.
  rewrite Hempty.
  assert (gt_zero v = false) as ->; [|done].
  destruct v as [| |bv|n|s]; try done.
  - by destruct bv.
  - change (toString (JNum n)) with (number_to_string n) in Hempty.
    by apply number_to_string_nonempty in Hempty.
  - change (toString (JStr s)) with s in Hempty. by subst s.
Qed.

Lemma empty_price_fails_every_check_witness :
  run_chain Rules.post_price (mkRequest ∅ {[ "price" := JStr "" ]} []) =
  [ mkError LBody "price" (JStr "") "Valor no valido";
    mkError LBody "price" (JStr "") "El precio del producto no puede ir vacio";
    mkError LBody "price" (JStr "") "Precio no valido" ].
Proof.
  destruct (empty_price_fails_every_check
              (mkRequest ∅ {[ "price" := JStr "" ]} [])) as [H _].
  - reflexivity.
  - exact H.
Defined.

(** ** What replace demands *)

Lemma availability_errors_nil v :
  availability_errors v = [] -> Validator.isBoolean (toString v) = true.
Proof.
  unfold availability_errors. intros H%when_nil.
  by destruct (Validator.isBoolean _).
Qed.

Lemma isBoolean_nonempty s : Validator.isBoolean s = true -> s <> "".
Proof. by intros H ->. Qed.

(** X16: a replace that passes its rules carries all three fields, and
    nothing of the stored row but its key survives it: on the key of a
    stored row, the answer and the row stored afterwards are the same
    whatever name, price and availability the row had before.  Replace
    cannot update a row in part. *)
Theorem replace_demands_every_field s k p p' b db db' :
  reachable db -> reachable db' ->
  Storage.key_of_string s = Some k ->
  Product.rows db !! k = Some p ->
  Product.rows db' !! k = Some p' ->
  violations Rules.put (mkRequest {[ "id" := s ]} b []) = [] ->
  (exists nm pr av,
     b !! "name" = Some nm /\ b !! "price" = Some pr
     /\ b !! "availability" = Some av)
  /\ fst (api (mkHttp PUT [s] b) db) = fst (api (mkHttp PUT [s] b) db')
  /\ Product.rows (snd (api (mkHttp PUT [s] b) db)) !! k =
     Product.rows (snd (api (mkHttp PUT [s] b) db')) !! k.
Proof.
  intros Hreach Hreach' Hk Hp Hp' Hv.
  assert (Hfields : exists nm pr av,
    b !! "name" = Some nm /\ b !! "price" = Some pr
    /\ b !! "availability" = Some av).
  { pose proof Hv as Hv'. rewrite violations_put in Hv'.
    apply app_eq_nil in Hv' as [_ [Hn [Hpr Ha]%app_eq_nil]%app_eq_nil].
    apply name_errors_nil, isEmpty_false, body_field_present in Hn.
    apply price_errors_nil in Hpr as [Hpr _].
    apply isNumeric_nonempty, body_field_present in Hpr.
    apply availability_errors_nil, isBoolean_nonempty, body_field_present in Ha.
    simpl in Hn, Hpr, Ha. eauto 10. }
  split; [exact Hfields|].
  destruct Hfields as (nm & pr & av & Hn & Hpr & Ha).
  pose proof (isInt_nonempty _ (key_of_string_isInt _ _ Hk)) as Hs.
  pose proof (put_cases s b db Hreach Hs) as H1.
  pose proof (put_cases s b db' Hreach' Hs) as H2.
  cbv zeta in H1, H2. rewrite Hv, lookup_row_Some, Hk in H1, H2.
  rewrite Hp in H1. rewrite Hp' in H2.
  destruct H1 as [_ ->]. destruct H2 as [_ ->]. simpl.
  rewrite (reachable_well_keyed _ Hreach _ _ Hp).
  rewrite (reachable_well_keyed _ Hreach' _ _ Hp').
  rewrite !lookup_insert_eq. unfold replaced.
  rewrite Hn, Hpr, Ha. simpl.
  rewrite (reachable_well_keyed _ Hreach _ _ Hp).
  by rewrite (reachable_well_keyed _ Hreach' _ _ Hp').
Qed.

Lemma replace_demands_every_field_witness :
  fst (api (mkHttp PUT ["1"] (Suite.monitor 300 true))
         (snd (api (mkHttp POST [] mouse) Product.empty))) =
  fst (api (mkHttp PUT ["1"] (Suite.monitor 300 true))
         (snd (api (mkHttp POST [] blank) Product.empty))).
Proof.
  destruct (replace_demands_every_field "1" 1 (created 1 mouse) (created 1 blank)
              (Suite.monitor 300 true)
              (snd (api (mkHttp POST [] mouse) Product.empty))
              (snd (api (mkHttp POST [] blank) Product.empty)))
    as (_ & H & _).
  - apply reachable_step, reachable_empty.
  - apply reachable_step, reachable_empty.
  - reflexivity.
  - reflexivity.
  - reflexivity.
  - vm_compute. reflexivity.
  - exact H.
Defined.

(** ** Routes that take no body *)

(** X17: get-by-id, toggle and delete never look at the body: two requests
    that differ in the body only get the same answer and leave the same
    store. *)
Theorem body_is_ignored_without_body_rules m s b b' db :
  m = GET \/ m = PATCH \/ m = DELETE ->
  api (mkHttp m [s] b) db = api (mkHttp m [s] b') db.
Proof.
  intros Hm.
  destruct (decide (String.length s = 0%nat)) as [Hlen|Hlen].
  { destruct s; [|done]. by destruct Hm as [-> | [-> | ->]]. }
  destruct (Validator.isInt s) eqn:Hs.
  - rewrite !api_id_route by done. by destruct Hm as [-> | [-> | ->]].
  - by rewrite !api_id_invalid.
Qed.

Lemma body_is_ignored_without_body_rules_witness :
  api (mkHttp PATCH ["1"] mouse) Product.empty =
  api (mkHttp PATCH ["1"] ∅) Product.empty.
Proof.
  apply (body_is_ignored_without_body_rules PATCH "1" mouse ∅ Product.empty).
  right. left. reflexivity.
Defined.

(** ** The server in front of the router *)



(** ** Validation and the store *)

Lemma updateProduct_status req db : status (fst (updateProduct req db)) <> 400.
Proof.
  unfold updateProduct. rewrite bind_run, findByPk_run. simpl.
  destruct (lookup_row _ _) as [p|]; [|done].
  unfold Storage.update, Storage.save, Storage.write, Storage.record, bind, ret.
  simpl. by repeat destruct (_ !! _).
Qed.

Lemma updateAvailability_status req db :
  status (fst (updateAvailability req db)) <> 400.
Proof.
  unfold updateAvailability. rewrite bind_run, findByPk_run. simpl.
  destruct (lookup_row _ _) as [p|]; [|done].
  unfold Storage.save, Storage.write, Storage.record, bind, ret.
  simpl. by repeat destruct (_ !! _).
Qed.

Lemma deleteProduct_status req db : status (fst (deleteProduct req db)) <> 400.
Proof.
  unfold deleteProduct. rewrite bind_run, findByPk_run. simpl.
  by destruct (lookup_row _ _) as [p|].
Qed.

Lemma getProductById_status req db : status (fst (getProductById req db)) <> 400.
Proof. rewrite getProductById_run. simpl. by destruct (lookup_row _ _). Qed.

Lemma guarded_400 rules h ps b db es :
  (forall req d, status (fst (h req d)) <> 400) ->
  fst (run_middlewares (guarded rules h) (mkRequest ps b []) db) =
    Some (mkResponse 400 (Errores es)) ->
  es = violations rules (mkRequest ps b []) /\ es <> [].
Proof.
  intros Hh. rewrite run_guarded. cbv zeta.
  destruct (violations rules _) as [|e es'] eqn:Hv; simpl.
  - intros [= Hres]. exfalso. eapply Hh. by rewrite Hres.
  - by intros [= <-].
Qed.

(** X20: validation does not depend on the store.  If a request is answered
    400 in one store, it is answered 400 with the same entries in every
    store, and these entries are the violations of the rules of its
    route. *)
Theorem refusal_does_not_depend_on_store h db db' es :
  fst (api h db) = Some (mkResponse 400 (Errores es)) ->
  api h db' = (Some (mkResponse 400 (Errores es)), db').
Proof.
  destruct h as [m [|s [|s' rest]] b]; try (by destruct m).
  - destruct m; try done. rewrite !api_post. cbv zeta.
    destruct (violations Rules.post _) as [|e es']; simpl.
    + rewrite createProduct_run. by destruct (create_key _ _).
    + by intros [= <-].
  - destruct (decide (String.length s = 0%nat)) as [Hs|Hs].
    { destruct s; [|done]. by destruct m. }
    rewrite !api_with_id by done.
    destruct m; try done; intros [-> Hne]%guarded_400;
      auto using getProductById_status, updateProduct_status,
        updateAvailability_status, deleteProduct_status;
      rewrite run_guarded; cbv zeta;
      by destruct (violations _ _).
Qed.

Lemma refusal_does_not_depend_on_store_witness :
  api (mkHttp DELETE ["x"] ∅) (snd (api (mkHttp POST [] mouse) Product.empty)) =
  (Some (mkResponse 400
           (Errores [mkError LParams "id" (JStr "x") "ID no valido"])),
   snd (api (mkHttp POST [] mouse) Product.empty)).
Proof.
  apply (refusal_does_not_depend_on_store (mkHttp DELETE ["x"] ∅) Product.empty).
  reflexivity.
Defined.
